(** * TripPilot client: the trip-creation chat wizard and the gated pages

    A shallow embedding of [client/app/create/page.tsx] (the chat wizard that
    collects a trip and posts it to the backend) and of the session gate of
    the other page components, with the properties of the wizard proved over
    it.

    Conventions of the embedding:
    - a JavaScript string is the list of its UTF-16 code units;
    - React state is a record, one field per [useState]/[useRef] hook, and
      every handler is a function from the state of the render it closes over
      to the next state, together with the timers it schedules;
    - a [setTimeout] callback is a [Timer] value holding what the callback
      captured from the render that created it;
    - the backend and the auth provider are an oracle ([Network]) that says,
      for each call, whether it throws or what it returns. *)

From Stdlib Require Import String Ascii Bool Arith NArith Lia List.
Import ListNotations.
Local Open Scope list_scope.

(* ================================================================== *)
(** ** JavaScript strings *)

Module Js.

(** A string value: its UTF-16 code units. *)
Definition str := list N.

(** The code units of an ASCII literal. *)
Fixpoint lit (s : string) : str :=
  match s with
  | EmptyString => []
  | String c s' => N_of_ascii c :: lit s'
  end.

(** ECMAScript [WhiteSpace] and [LineTerminator] code points, the ones
    [String.prototype.trim] strips.  All of them lie in the basic plane, so
    the test is per code unit. *)
Definition isWhiteSpace (c : N) : bool :=
  ((9 <=? c) && (c <=? 13)               (* TAB LF VT FF CR *)
   || (c =? 32)                          (* SPACE *)
   || (c =? 160)                         (* NO-BREAK SPACE *)
   || (c =? 5760)                        (* OGHAM SPACE MARK *)
   || (8192 <=? c) && (c <=? 8202)       (* EN QUAD .. HAIR SPACE *)
   || (c =? 8232) || (c =? 8233)         (* LINE / PARAGRAPH SEPARATOR *)
   || (c =? 8239)                        (* NARROW NO-BREAK SPACE *)
   || (c =? 8287)                        (* MEDIUM MATHEMATICAL SPACE *)
   || (c =? 12288)                       (* IDEOGRAPHIC SPACE *)
   || (c =? 65279))%N.                   (* ZERO WIDTH NO-BREAK SPACE *)

Fixpoint trimStart (s : str) : str :=
  match s with
  | [] => []
  | c :: s' => if isWhiteSpace c then trimStart s' else s
  end.

Definition trimEnd (s : str) : str := rev (trimStart (rev s)).

(** [s.trim()] *)
Definition trim (s : str) : str := trimEnd (trimStart s).

(** Truthiness of a string: only the empty string is falsy. *)
Definition truthy (s : str) : bool :=
  match s with [] => false | _ :: _ => true end.

End Js.

(* ================================================================== *)
(** ** The data model of the wizard *)

(** [interface Trip]: eight string fields. *)
Record Trip := mkTrip {
  destination : Js.str;
  budget : Js.str;
  startDate : Js.str;
  endDate : Js.str;
  travelers : Js.str;
  accessibility : Js.str;
  interests : Js.str;
  notes : Js.str
}.

(** The keys of [Trip]; [steps] names a field by its key. *)
Inductive Field :=
| Fdestination | Fbudget | FstartDate | FendDate
| Ftravelers | Faccessibility | Finterests | Fnotes.

Definition Field_eqb (f g : Field) : bool :=
  match f, g with
  | Fdestination, Fdestination | Fbudget, Fbudget
  | FstartDate, FstartDate | FendDate, FendDate
  | Ftravelers, Ftravelers | Faccessibility, Faccessibility
  | Finterests, Finterests | Fnotes, Fnotes => true
  | _, _ => false
  end.

(** The key as the source spells it. *)
Definition fieldName (f : Field) : string :=
  match f with
  | Fdestination => "destination"
  | Fbudget => "budget"
  | FstartDate => "startDate"
  | FendDate => "endDate"
  | Ftravelers => "travelers"
  | Faccessibility => "accessibility"
  | Finterests => "interests"
  | Fnotes => "notes"
  end.

(** [t[f]] *)
Definition getField (f : Field) (t : Trip) : Js.str :=
  match f with
  | Fdestination => destination t
  | Fbudget => budget t
  | FstartDate => startDate t
  | FendDate => endDate t
  | Ftravelers => travelers t
  | Faccessibility => accessibility t
  | Finterests => interests t
  | Fnotes => notes t
  end.

(** [{ ...t, [f]: v }] *)
Definition setField (f : Field) (v : Js.str) (t : Trip) : Trip :=
  match f with
  | Fdestination => mkTrip v (budget t) (startDate t) (endDate t) (travelers t) (accessibility t) (interests t) (notes t)
  | Fbudget => mkTrip (destination t) v (startDate t) (endDate t) (travelers t) (accessibility t) (interests t) (notes t)
  | FstartDate => mkTrip (destination t) (budget t) v (endDate t) (travelers t) (accessibility t) (interests t) (notes t)
  | FendDate => mkTrip (destination t) (budget t) (startDate t) v (travelers t) (accessibility t) (interests t) (notes t)
  | Ftravelers => mkTrip (destination t) (budget t) (startDate t) (endDate t) v (accessibility t) (interests t) (notes t)
  | Faccessibility => mkTrip (destination t) (budget t) (startDate t) (endDate t) (travelers t) v (interests t) (notes t)
  | Finterests => mkTrip (destination t) (budget t) (startDate t) (endDate t) (travelers t) (accessibility t) v (notes t)
  | Fnotes => mkTrip (destination t) (budget t) (startDate t) (endDate t) (travelers t) (accessibility t) (interests t) v
  end.

(** The record every reset writes: all eight fields the empty string. *)
Definition emptyTrip : Trip := mkTrip [] [] [] [] [] [] [] [].

Record Step := mkStep { field : Field; prompt : Js.str }.

(** [const steps = [...]] *)
Definition steps : list Step :=
  [ mkStep Fdestination (Js.lit "Where would you like to go?");
    mkStep Fbudget (Js.lit "What's your budget for this trip?");
    mkStep FstartDate (Js.lit "When will the trip start? (YYYY-MM-DD)");
    mkStep FendDate (Js.lit "When will the trip end? (YYYY-MM-DD)");
    mkStep Ftravelers (Js.lit "How many people are traveling?");
    mkStep Faccessibility (Js.lit "Do you have any accessibility needs?");
    mkStep Finterests (Js.lit "What type of activities or experiences interest you?");
    mkStep Fnotes (Js.lit "Any additional notes or preferences?") ].

Inductive Sender := user | bot.

(** An entry of the transcript.  [timestamp] is the value [new Date()] had
    when the entry was built, in milliseconds. *)
Record Message := mkMessage {
  id : nat;
  type : Sender;
  content : Js.str;
  timestamp : N
}.

Definition greeting : Js.str :=
  Js.lit "Hello! I'm your TripPilot AI assistant. I'm here to help you plan the perfect trip.".

Definition completionMessage : Js.str :=
  Js.lit "Got all the details! Would you like to submit this trip or add another one?".

(** The success string ends in U+1F680, a surrogate pair in UTF-16. *)
Definition successMessage : Js.str :=
  (Js.lit "Thanks! Your trip(s) have been submitted successfully " ++ [55357; 56960])%N%list.

(** The failure string ends in U+274C. *)
Definition failureMessage : Js.str :=
  (Js.lit "Sorry, there was an error submitting your trip(s). Please try again later. " ++ [10060])%N%list.

(* ================================================================== *)
(** ** The state of the create page *)

(** One field per hook of [Page]: the [useState] cells and the
    [hasShownInitialPromptRef] ref.  ([messagesEndRef] and [inputRef] point
    into the DOM and carry no data.) *)
Record State := mkState {
  stepIndex : nat;
  tripData : Trip;
  currentTrips : list Trip;
  messages : list Message;
  inputMessage : Js.str;
  isTyping : bool;
  isSubmitting : bool;
  hasShownInitialPrompt : bool
}.

Definition setStepIndex (v : nat) (s : State) : State :=
  mkState v (tripData s) (currentTrips s) (messages s) (inputMessage s)
          (isTyping s) (isSubmitting s) (hasShownInitialPrompt s).
Definition setTripData (v : Trip) (s : State) : State :=
  mkState (stepIndex s) v (currentTrips s) (messages s) (inputMessage s)
          (isTyping s) (isSubmitting s) (hasShownInitialPrompt s).
Definition setCurrentTrips (v : list Trip) (s : State) : State :=
  mkState (stepIndex s) (tripData s) v (messages s) (inputMessage s)
          (isTyping s) (isSubmitting s) (hasShownInitialPrompt s).
Definition setMessages (v : list Message) (s : State) : State :=
  mkState (stepIndex s) (tripData s) (currentTrips s) v (inputMessage s)
          (isTyping s) (isSubmitting s) (hasShownInitialPrompt s).
Definition setInputMessage (v : Js.str) (s : State) : State :=
  mkState (stepIndex s) (tripData s) (currentTrips s) (messages s) v
          (isTyping s) (isSubmitting s) (hasShownInitialPrompt s).
Definition setIsTyping (v : bool) (s : State) : State :=
  mkState (stepIndex s) (tripData s) (currentTrips s) (messages s) (inputMessage s)
          v (isSubmitting s) (hasShownInitialPrompt s).
Definition setIsSubmitting (v : bool) (s : State) : State :=
  mkState (stepIndex s) (tripData s) (currentTrips s) (messages s) (inputMessage s)
          (isTyping s) v (hasShownInitialPrompt s).
Definition setHasShownInitialPrompt (v : bool) (s : State) : State :=
  mkState (stepIndex s) (tripData s) (currentTrips s) (messages s) (inputMessage s)
          (isTyping s) (isSubmitting s) v.

(** The state of the first render; [now] is the clock at that moment. *)
Definition initialState (now : N) : State :=
  mkState 0 emptyTrip [] [mkMessage 1 bot greeting now] [] false false false.

(** [setMessages((prev) => [...prev, m prev])] *)
Definition pushMessage (m : list Message -> Message) (s : State) : State :=
  setMessages (messages s ++ [m (messages s)]) s.

(** What a [setTimeout] callback of this page does, with the values it
    closed over. *)
Inductive Timer :=
| FocusTimer                             (* inputRef.current?.focus() *)
| InitialPromptTimer                     (* the effect's 500 ms callback *)
| ReplyTimer (stepIndex0 length0 : nat). (* handleSendMessage's 1000 ms callback,
                                            with the [stepIndex] and
                                            [messages.length] of its render *)

(** [steps[i].prompt] where the source indexes the array without a check.
    The index is in range at each use ([promptAt_in_range] below), so the
    default is never produced. *)
Definition promptAt (i : nat) : Js.str :=
  match nth_error steps i with
  | Some st => prompt st
  | None => []
  end.

(* ================================================================== *)
(** ** The handlers *)

(** [onChange={(e) => setInputMessage(e.target.value)}] *)
Definition handleInputChange (value : Js.str) (s : State) : State :=
  setInputMessage value s.

(** [handleSendMessage], the synchronous part: everything up to the two
    [setTimeout] calls, which are returned as the timers scheduled. *)
Definition handleSendMessage (now : N) (s : State) : State * list Timer :=
  if negb (Js.truthy (Js.trim (inputMessage s))) then (s, [])
  else
    let userMessage :=
      mkMessage (length (messages s) + 1) user (inputMessage s) now in
    let s1 := pushMessage (fun _ => userMessage) s in
    let s2 :=
      match nth_error steps (stepIndex s) with
      | Some currentStep =>
          setTripData (setField (field currentStep) (inputMessage s) (tripData s1)) s1
      | None => s1
      end in
    (setIsTyping true (setInputMessage [] s2),
     [FocusTimer; ReplyTimer (stepIndex s) (length (messages s))]).

(** The body of a timer callback, run at time [now] on the state of that
    moment. *)
Definition fireTimer (t : Timer) (now : N) (s : State) : State * list Timer :=
  match t with
  | FocusTimer => (s, [])
  | InitialPromptTimer =>
      (pushMessage (fun prev => mkMessage (length prev + 1) bot (promptAt 0) now) s, [])
  | ReplyTimer stepIndex0 length0 =>
      let s1 := setIsTyping false s in
      if stepIndex0 <? length steps - 1 then
        let botMessage :=
          mkMessage (length0 + 2) bot (promptAt (stepIndex0 + 1)) now in
        let s2 := pushMessage (fun _ => botMessage) s1 in
        (setStepIndex (stepIndex s2 + 1) s2, [FocusTimer])
      else
        let botMessage := mkMessage (length0 + 2) bot completionMessage now in
        (pushMessage (fun _ => botMessage) s1, [])
  end.

(** [handleAddAnotherTrip] *)
Definition handleAddAnotherTrip (now : N) (s : State) : State * list Timer :=
  let s1 := setCurrentTrips (currentTrips s ++ [tripData s]) s in
  let s2 := setTripData emptyTrip s1 in
  let s3 := setStepIndex 0 s2 in
  let s4 :=
    pushMessage (fun prev => mkMessage (length prev + 1) bot (promptAt 0) now) s3 in
  (s4, [FocusTimer]).

(* ================================================================== *)
(** ** The session and the backend *)

(** [useSession().status] *)
Inductive Status := authenticated | loading | unauthenticated.

Definition Status_eqb (a b : Status) : bool :=
  match a, b with
  | authenticated, authenticated | loading, loading
  | unauthenticated, unauthenticated => true
  | _, _ => false
  end.

(** The effect that shows the first prompt: it runs after a render, with the
    [status] and the state of that render. *)
Definition initialPromptEffect (status : Status) (s : State) : State * list Timer :=
  if Status_eqb status authenticated
     && negb (hasShownInitialPrompt s)
     && (stepIndex s =? 0)
     && (length (messages s) =? 1)
  then (setHasShownInitialPrompt true s, [InitialPromptTimer])
  else (s, []).

(** What [getSession()] resolves to, as far as the page reads it. *)
Module Auth.
Record User := mkUser { accessToken : option Js.str }.
Record Session := mkSession { user : option User }.

(** [session?.user?.accessToken]; [None] is [undefined]. *)
Definition token (session : option Session) : option Js.str :=
  match session with
  | None => None
  | Some se =>
      match user se with
      | None => None
      | Some u => accessToken u
      end
  end.
End Auth.

Inductive Method := GET | POST.

(** The JSON bodies the page sends: [{}] and [{ trips: allTrips }]. *)
Inductive Body := EmptyObject | TripsBody (trips : list Trip).

(** An axios call: method, URL, body (POST only) and the [Authorization]
    header when one is set. *)
Record Request := mkRequest {
  method : Method;
  url : string;
  body : option Body;
  authorization : option Js.str
}.

(** The part of a response body the page looks at: whether its [exists]
    property is truthy. *)
Record Data := mkData { exists_ : bool }.

(** An axios response; [data = None] is a null or missing body. *)
Record Response := mkResponse { data : option Data }.

(** The outcome of an awaited call. *)
Inductive Result (A : Type) := Throws | Returns (a : A).
Arguments Throws {A}.
Arguments Returns {A} a.

(** The world outside the page during one submission: what [getSession]
    yields and what the backend answers to a request, given the requests it
    has already received in this run. *)
Record Network := mkNetwork {
  session : Result (option Auth.Session);
  respond : list Request -> Request -> Result Response
}.

(** Computations of the [try] block: they read the network, log the requests
    sent, and either throw or return. *)
Definition Http (A : Type) : Type :=
  Network -> list Request -> list Request * Result A.

Definition ret {A} (a : A) : Http A := fun _ sent => (sent, Returns a).

Definition throw {A} : Http A := fun _ sent => (sent, Throws).

Definition bind {A B} (m : Http A) (k : A -> Http B) : Http B :=
  fun net sent =>
    match m net sent with
    | (sent', Throws) => (sent', Throws)
    | (sent', Returns a) => k a net sent'
    end.

Notation "x <- m ;; k" := (bind m (fun x => k))
  (at level 61, m at next level, right associativity).
Notation "m ;;; k" := (bind m (fun _ => k))
  (at level 61, right associativity).

(** [await getSession()] *)
Definition getSession : Http (option Auth.Session) :=
  fun net sent => (sent, session net).

(** [await axios.get(...)] / [await axios.post(...)]: the request is sent,
    then the answer is awaited. *)
Definition axios (r : Request) : Http Response :=
  fun net sent => (sent ++ [r], respond net sent r).

Definition bearer (token : Js.str) : Js.str := Js.lit "Bearer " ++ token.

Definition checkUserRequest (token : Js.str) : Request :=
  mkRequest GET "http://localhost:8000/check_user_exists" None (Some (bearer token)).

Definition registerUserRequest (token : Js.str) : Request :=
  mkRequest POST "http://localhost:8000/register_pinecone_user"
            (Some EmptyObject) (Some (bearer token)).

Definition submitTripsRequest (allTrips : list Trip) : Request :=
  mkRequest POST "http://localhost:8000" (Some (TripsBody allTrips)) None.

(** [checkRes.data?.exists], as a condition. *)
Definition userExists (checkRes : Response) : bool :=
  match data checkRes with
  | None => false
  | Some d => exists_ d
  end.

(** The [try] block of [handleSubmitAllTrips], up to the last [await]. *)
Definition submitRequests (allTrips : list Trip) : Http unit :=
  session <- getSession ;;
  match Auth.token session with
  | None => throw                              (* [!undefined] *)
  | Some token =>
      if negb (Js.truthy token) then throw     (* the empty string is falsy too *)
      else
        checkRes <- axios (checkUserRequest token) ;;
        (if negb (userExists checkRes)
         then axios (registerUserRequest token) ;;; ret tt
         else ret tt) ;;;
        axios (submitTripsRequest allTrips) ;;;
        ret tt
  end.

(** [handleSubmitAllTrips] up to its first [await]: [allTrips] is fixed and
    the button is disabled. *)
Definition submitStart (s : State) : State * list Trip :=
  (setIsSubmitting true s, currentTrips s ++ [tripData s]).

(** [handleSubmitAllTrips] after its last [await]: the end of the [try]
    block when nothing threw, the [catch] block otherwise, then [finally].
    It runs on the state of that moment. *)
Definition submitSettle (outcome : Result unit) (now : N) (s : State) : State :=
  let s1 :=
    match outcome with
    | Returns _ =>
        pushMessage (fun prev => mkMessage (length prev + 1) bot successMessage now) s
    | Throws =>
        pushMessage (fun prev => mkMessage (length prev + 1) bot failureMessage now) s
    end in
  let s2 := setIsSubmitting false s1 in
  let s3 := setTripData emptyTrip s2 in
  let s4 := setCurrentTrips [] s3 in
  let s5 := setStepIndex 0 s4 in
  setHasShownInitialPrompt false s5.

(** One uninterrupted run of [handleSubmitAllTrips]: the state it leaves and
    the requests it sent, in order. *)
Definition handleSubmitAllTrips (net : Network) (now : N) (s : State)
  : State * list Request :=
  let (s1, allTrips) := submitStart s in
  let (sent, outcome) := submitRequests allTrips net [] in
  (submitSettle outcome now s1, sent).

(* ================================================================== *)
(** ** What the page components render *)

(** The three returns every gated component has, with the main content as a
    parameter. *)
Inductive View (Main : Type) :=
| LoadingView                (* "Loading..." *)
| AccessRequiredView         (* "Access Required", with the link to /login *)
| MainContent (m : Main).
Arguments LoadingView {Main}.
Arguments AccessRequiredView {Main}.
Arguments MainContent {Main} m.

Inductive ViewKind := Loading | AccessRequired | Content.

Definition kind {Main} (v : View Main) : ViewKind :=
  match v with
  | LoadingView => Loading
  | AccessRequiredView => AccessRequired
  | MainContent _ => Content
  end.

(** The create page, [client/app/create/page.tsx]. *)
Module CreatePage.

(** The state-dependent parts of the main JSX. *)
Record Main := mkMain {
  transcript : list Message;       (* messages.map(...) *)
  typingIndicator : bool;          (* {isTyping && ...} *)
  inputValue : Js.str;             (* value={inputMessage} *)
  inputDisabled : bool;            (* disabled={isTyping} *)
  sendDisabled : bool;             (* disabled={isTyping || !inputMessage.trim()} *)
  tripButtons : bool;              (* stepIndex === steps.length - 1 && !isTyping *)
  submitDisabled : bool            (* disabled={isSubmitting} *)
}.

Definition Page (status : Status) (s : State) : View Main :=
  if Status_eqb status loading then LoadingView
  else if Status_eqb status unauthenticated then AccessRequiredView
  else MainContent
         (mkMain (messages s)
                 (isTyping s)
                 (inputMessage s)
                 (isTyping s)
                 (isTyping s || negb (Js.truthy (Js.trim (inputMessage s))))
                 ((stepIndex s =? length steps - 1) && negb (isTyping s))
                 (isSubmitting s)).

End CreatePage.

(** The dashboard: the welcome header and the three cards. *)
Module DashboardPage.

(** [session.user] as the dashboard reads it. *)
Record User := mkUser { username : option Js.str; name : option Js.str }.
Record Session := mkSession { user : option User }.

(** [a || b] on optional strings: the first truthy one. *)
Definition orElse (a : option Js.str) (b : option Js.str) : option Js.str :=
  match a with
  | Some x => if Js.truthy x then a else b
  | None => b
  end.

(** [session?.user?.username || session?.user?.name || "Traveler"] *)
Definition welcomeName (session : option Session) : Js.str :=
  let u := match session with Some se => user se | None => None end in
  let username' := match u with Some x => username x | None => None end in
  let name' := match u with Some x => name x | None => None end in
  match orElse (orElse username' name') (Some (Js.lit "Traveler")) with
  | Some x => x
  | None => []
  end.

Record Main := mkMain { welcome : Js.str }.

Definition Page (status : Status) (session : option Session) : View Main :=
  if Status_eqb status loading then LoadingView
  else if Status_eqb status unauthenticated then AccessRequiredView
  else MainContent (mkMain (welcomeName session)).

End DashboardPage.

(** The free-form chat page, with its canned reply. *)
Module ChatPage.

Record State := mkState {
  messages : list Message;
  inputMessage : Js.str;
  isTyping : bool
}.

Record Main := mkMain {
  transcript : list Message;
  typingIndicator : bool;
  inputValue : Js.str;
  inputDisabled : bool;
  sendDisabled : bool
}.

Definition Page (status : Status) (s : State) : View Main :=
  if Status_eqb status loading then LoadingView
  else if Status_eqb status unauthenticated then AccessRequiredView
  else MainContent
         (mkMain (messages s)
                 (isTyping s)
                 (inputMessage s)
                 (isTyping s)
                 (isTyping s || negb (Js.truthy (Js.trim (inputMessage s))))).

End ChatPage.

(** The menu page: a heading that welcomes the user back and a sign-out
    button. *)
Module MenuPage.

(** [session.user] as the menu page reads it; the page reads
    [session?.user.username], so [user] is there whenever the session is. *)
Record User := mkUser { username : option Js.str; name : option Js.str }.
Record Session := mkSession { user : User }.

(** The three returns of the component. *)
Inductive Rendered :=
| LoadingText                          (* <p>Loading...</p> *)
| PleaseLogin                          (* <h2>Please login to see this menu page</h2> *)
| Menu (welcome : option Js.str).      (* the heading with the name, and "Sign Out" *)

(** [session?.user.username || session?.user.name]; [None] is [undefined]. *)
Definition welcomeName (session : option Session) : option Js.str :=
  match session with
  | None => None
  | Some se => DashboardPage.orElse (username (user se)) (name (user se))
  end.

Definition Page (status : Status) (session : option Session) : Rendered :=
  if Status_eqb status loading then LoadingText
  else if Status_eqb status unauthenticated then PleaseLogin
  else Menu (welcomeName session).

Definition kind (r : Rendered) : ViewKind :=
  match r with
  | LoadingText => Loading
  | PleaseLogin => AccessRequired
  | Menu _ => Content
  end.

End MenuPage.

(** The landing page, [landing()]: static marketing content; it does not
    call [useSession]. *)
Module LandingPage.
Inductive Main := Marketing.
Definition landing : View Main := MainContent Marketing.
End LandingPage.

(** The page components of the client: the five default exports of the
    source files. *)
Inductive PageComponent := Create | Dashboard | Menu | Chat | Landing.

(** Whether the component reads the session: [Page] of the create page, of
    the dashboard, of the menu page and of the chat page each start with
    [useSession()]; [landing] has no such call. *)
Definition usesSession (p : PageComponent) : bool :=
  match p with
  | Create | Dashboard | Menu | Chat => true
  | Landing => false
  end.

(** What a component is rendered from, besides the session status. *)
Definition Props (p : PageComponent) : Type :=
  match p with
  | Create => State
  | Dashboard => option DashboardPage.Session
  | Menu => option MenuPage.Session
  | Chat => ChatPage.State
  | Landing => unit
  end.

(** Which of the three returns a component takes. *)
Definition render (p : PageComponent) (status : Status) : Props p -> ViewKind :=
  match p with
  | Create => fun s => kind (CreatePage.Page status s)
  | Dashboard => fun session => kind (DashboardPage.Page status session)
  | Menu => fun session => MenuPage.kind (MenuPage.Page status session)
  | Chat => fun s => kind (ChatPage.Page status s)
  | Landing => fun _ => kind LandingPage.landing
  end.

(* ================================================================== *)
(** ** The create page as a transition system *)

(** The mounted create page in its environment: the session status, the hook
    state, the timers not yet fired, and the submissions whose network calls
    have not settled yet (each with the [allTrips] it captured). *)
Record World := mkWorld {
  status : Status;
  page : State;
  timers : list Timer;
  inflight : list (list Trip)
}.

Definition initialWorld (st : Status) (now : N) : World :=
  mkWorld st (initialState now) [] [].

(** What the user can do is what the rendered view offers. *)
Definition offered (w : World) (enabled : CreatePage.Main -> bool) : Prop :=
  exists m, CreatePage.Page (status w) (page w) = MainContent m /\ enabled m = true.

(** One event of the page's life.  Events are atomic: React flushes the
    state updates of a handler before the next event is delivered. *)
Inductive step : World -> World -> Prop :=
| step_session (w : World) (st : Status) :
    (* the auth provider changes the status *)
    step w (mkWorld st (page w) (timers w) (inflight w))
| step_effect (w : World) (s' : State) (ts : list Timer) :
    (* the initial-prompt effect runs after a render *)
    initialPromptEffect (status w) (page w) = (s', ts) ->
    step w (mkWorld (status w) s' (timers w ++ ts) (inflight w))
| step_type (w : World) (value : Js.str) :
    offered w (fun m => negb (CreatePage.inputDisabled m)) ->
    step w (mkWorld (status w) (handleInputChange value (page w))
                    (timers w) (inflight w))
| step_send (w : World) (now : N) (s' : State) (ts : list Timer) :
    offered w (fun m => negb (CreatePage.inputDisabled m)) ->
    handleSendMessage now (page w) = (s', ts) ->
    step w (mkWorld (status w) s' (timers w ++ ts) (inflight w))
| step_add (w : World) (now : N) (s' : State) (ts : list Timer) :
    offered w CreatePage.tripButtons ->
    handleAddAnotherTrip now (page w) = (s', ts) ->
    step w (mkWorld (status w) s' (timers w ++ ts) (inflight w))
| step_submit (w : World) (s' : State) (allTrips : list Trip) :
    offered w (fun m => CreatePage.tripButtons m && negb (CreatePage.submitDisabled m)) ->
    submitStart (page w) = (s', allTrips) ->
    step w (mkWorld (status w) s' (timers w) (inflight w ++ [allTrips]))
| step_settle (w : World) (before after : list (list Trip)) (allTrips : list Trip)
              (net : Network) (now : N) :
    (* the network calls of a submission in flight settle *)
    inflight w = before ++ allTrips :: after ->
    step w (mkWorld (status w)
                    (submitSettle (snd (submitRequests allTrips net [])) now (page w))
                    (timers w) (before ++ after))
| step_timer (w : World) (before after : list Timer) (t : Timer) (now : N)
             (s' : State) (ts : list Timer) :
    (* a pending timer fires *)
    timers w = before ++ t :: after ->
    fireTimer t now (page w) = (s', ts) ->
    step w (mkWorld (status w) s' (before ++ after ++ ts) (inflight w)).

(** The states the page can be in. *)
Inductive reachable : World -> Prop :=
| reachable_init (st : Status) (now : N) : reachable (initialWorld st now)
| reachable_step (w w' : World) : reachable w -> step w w' -> reachable w'.

(** The captured step indices of the reply timers still pending. *)
Fixpoint pendingReplies (ts : list Timer) : list nat :=
  match ts with
  | [] => []
  | ReplyTimer i _ :: ts' => i :: pendingReplies ts'
  | _ :: ts' => pendingReplies ts'
  end.

(** The invariant behind the bound on [stepIndex]: at most one reply timer is
    pending, only while the bot is typing, and the index it captured is the
    current one unless a submission has reset the wizard since. *)
Definition wizardInv (w : World) : Prop :=
  stepIndex (page w) <= length steps - 1 /\
  match pendingReplies (timers w) with
  | [] => True
  | [i] => isTyping (page w) = true /\
           (stepIndex (page w) = i \/ stepIndex (page w) = 0)
  | _ :: _ :: _ => False
  end.

(** [handleSendMessage] run to completion with nothing in between: the
    synchronous part at [now], then the callbacks it scheduled at [later]. *)
Definition answer (now later : N) (s : State) : State :=
  let (s1, ts) := handleSendMessage now s in
  fold_left (fun acc t => fst (fireTimer t later acc)) ts s1.

(** The user types [text], sends it, and the bot replies. *)
Definition typeAndSend (now later : N) (s : State) (text : Js.str) : State :=
  answer now later (handleInputChange text s).

(* ================================================================== *)
(** ** Reading a run of the submission *)

(** The token a run gets to use: [getSession] resolved and the session
    carries a truthy [accessToken]. *)
Definition sessionToken (net : Network) : option Js.str :=
  match session net with
  | Throws => None
  | Returns se =>
      match Auth.token se with
      | Some t => if Js.truthy t then Some t else None
      | None => None
      end
  end.

(** Dropping the answer of a call that is awaited but not looked at. *)
Definition settled (r : Result Response) : Result unit :=
  match r with
  | Throws => Throws
  | Returns _ => Returns tt
  end.

(** Every call the run gets to make returns: there is a token, the check
    answers, the registration (made when the check reports the user absent)
    answers, and the POST of the trips answers. *)
Definition allCallsSucceed (net : Network) (allTrips : list Trip) : Prop :=
  exists se token checkRes,
    session net = Returns se /\
    Auth.token se = Some token /\ token <> [] /\
    respond net [] (checkUserRequest token) = Returns checkRes /\
    let check := checkUserRequest token in
    if userExists checkRes
    then exists res, respond net [check] (submitTripsRequest allTrips) = Returns res
    else (exists res, respond net [check] (registerUserRequest token) = Returns res) /\
         exists res, respond net [check; registerUserRequest token]
                             (submitTripsRequest allTrips) = Returns res.

(* ================================================================== *)
(** ** Sample networks and pages *)

(** A backend that knows the user and accepts the trips. *)
Definition friendlyNetwork : Network :=
  mkNetwork (Returns (Some (Auth.mkSession (Some (Auth.mkUser (Some (Js.lit "tok")))))))
            (fun _ _ => Returns (mkResponse (Some (mkData true)))).

(** A backend that is down. *)
Definition deadNetwork : Network :=
  mkNetwork (Returns (Some (Auth.mkSession (Some (Auth.mkUser (Some (Js.lit "tok")))))))
            (fun _ _ => Throws).

(** A page in the middle of the wizard whose input box holds a space, a tab
    and a line feed. *)
Definition blankDraft : State :=
  mkState 3 (mkTrip (Js.lit "Lisbon") (Js.lit "2000") (Js.lit "2025-05-01") [] [] [] [] [])
          [] [mkMessage 1 bot greeting 0] [32; 9; 10]%N false false true.

(** The page after the first answer, with the budget typed into the box. *)
Definition budgetDraft : State :=
  mkState 1 (mkTrip (Js.lit "Lisbon") [] [] [] [] [] [] [])
          []
          [mkMessage 1 bot greeting 0;
           mkMessage 2 bot (Js.lit "Where would you like to go?") 1;
           mkMessage 3 user (Js.lit "Lisbon") 2;
           mkMessage 4 bot (Js.lit "What's your budget for this trip?") 3]
          (Js.lit "2000 EUR") false false true.

(** The page at the last step, one trip set aside and one just completed. *)
Definition completedDraft : State :=
  mkState 7
          (mkTrip (Js.lit "Lisbon") (Js.lit "2000") (Js.lit "2025-05-01") (Js.lit "2025-05-08")
                  (Js.lit "2") (Js.lit "none") (Js.lit "food") (Js.lit "window seat"))
          [mkTrip (Js.lit "Oslo") (Js.lit "900") (Js.lit "2025-02-01") (Js.lit "2025-02-04")
                  (Js.lit "1") (Js.lit "none") (Js.lit "skiing") (Js.lit "-")]
          [mkMessage 1 bot greeting 0]
          [] false false true.

(* ================================================================== *)
(** ** Driving the transition system *)

(** The user types [text] into the enabled input box. *)
Ltac userTypes R text :=
  eapply reachable_step in R;
  [| eapply (step_type _ text); eexists; split; reflexivity ];
  cbv in R.

(** The user sends what is in the box at time [now]. *)
Ltac userSends R now :=
  eapply reachable_step in R;
  [| eapply (step_send _ now); [eexists; split; reflexivity | reflexivity] ];
  cbv in R.

(** The oldest pending timer fires at time [now]. *)
Ltac timerFires R now :=
  eapply reachable_step in R;
  [| eapply (step_timer _ [] _ _ now); reflexivity ];
  cbv in R.

(** The user presses "Submit All Trips". *)
Ltac userSubmits R :=
  eapply reachable_step in R;
  [| eapply step_submit; [eexists; split; reflexivity | reflexivity] ];
  cbv in R.

(** The user presses "Add Another Trip" at time [now]. *)
Ltac userAddsTrip R now :=
  eapply reachable_step in R;
  [| eapply (step_add _ now); [eexists; split; reflexivity | reflexivity] ];
  cbv in R.

(** The oldest submission in flight settles against [net] at time [now]. *)
Ltac submissionSettles R net now :=
  eapply reachable_step in R;
  [| eapply (step_settle _ [] _ _ net now); reflexivity ];
  cbv in R.

(** The effect runs after a render. *)
Ltac effectRuns R :=
  eapply reachable_step in R;
  [| eapply step_effect; reflexivity ];
  cbv in R.

(** One question answered: typed, sent, and all three timers run. *)
Ltac userAnswers R text now :=
  userTypes R text; userSends R now;
  timerFires R now; timerFires R now; timerFires R now.

(* ================================================================== *)
(** ** Entering several trips *)

(** The eight answers that make up a trip, in the order of [steps]. *)
Definition answersOf (t : Trip) : list Js.str :=
  [destination t; budget t; startDate t; endDate t;
   travelers t; accessibility t; interests t; notes t].

(** Every field of the trip is an answer the wizard accepts. *)
Definition answerable (t : Trip) : bool :=
  forallb (fun a => negb (forallb Js.isWhiteSpace a)) (answersOf t).

(** The user answers the eight prompts with the fields of [t]. *)
Definition fillIn (now later : N) (s : State) (t : Trip) : State :=
  fold_left (typeAndSend now later) (answersOf t) s.

(** The user enters [first], and for each further trip presses "Add Another
    Trip" and enters it. *)
Fixpoint enterTrips (now later : N) (s : State) (first : Trip) (more : list Trip)
  : State :=
  match more with
  | [] => fillIn now later s first
  | t :: more' =>
      enterTrips now later
                 (fst (handleAddAnotherTrip later (fillIn now later s first)))
                 t more'
  end.

(* ================================================================== *)
(** ** More about the transition system of the create page *)

(** Zero or more events. *)
Inductive run : World -> World -> Prop :=
| run_here (w : World) : run w w
| run_next (w w' w'' : World) : step w w' -> run w' w'' -> run w w''.

(** The number of initial-prompt timers still pending. *)
Fixpoint pendingInitialPrompts (ts : list Timer) : nat :=
  match ts with
  | [] => 0
  | InitialPromptTimer :: ts' => S (pendingInitialPrompts ts')
  | _ :: ts' => pendingInitialPrompts ts'
  end.

(** The typing indicator and the reply timers go together. *)
Definition typingInv (w : World) : Prop :=
  wizardInv w /\
  (isTyping (page w) = true -> pendingReplies (timers w) <> []).

(** [isSubmitting] and the submissions in flight go together. *)
Definition submitInv (w : World) : Prop :=
  length (inflight w) <= 1 /\
  (isSubmitting (page w) = true <-> inflight w <> []).

(** The effect that shows the first prompt has run its course: it has set
    its ref on the one-message transcript, or the transcript has grown. *)
Definition promptShown (w : World) : Prop :=
  2 <= length (messages (page w)) \/
  (length (messages (page w)) = 1 /\ hasShownInitialPrompt (page w) = true).

(** The ids of a transcript are the positions of its entries, from 1. *)
Definition numbered (ms : list Message) : Prop :=
  map id ms = seq 1 (length ms).

(* ================================================================== *)
(** ** The handlers of the chat page *)

Module ChatEvents.

Definition greeting : Js.str :=
  Js.lit "Hello! I'm your TripPilot AI assistant. I'm here to help you plan the perfect trip. Where would you like to go, or what kind of adventure are you looking for?".

(** The simulated answer of the assistant. *)
Definition cannedReply : Js.str :=
  Js.lit "That sounds like an amazing destination! Let me help you plan this trip. I'll need a few more details to create the perfect itinerary for you. What's your budget range and how many days are you planning to travel?".

Definition initialState (now : N) : ChatPage.State :=
  ChatPage.mkState [mkMessage 1 bot greeting now] [] false.

(** The 2000 ms callback of [handleSendMessage], with the
    [messages.length] of its render. *)
Inductive Timer := ReplyTimer (length0 : nat).

(** [onChange={(e) => setInputMessage(e.target.value)}] *)
Definition handleInputChange (value : Js.str) (s : ChatPage.State) : ChatPage.State :=
  ChatPage.mkState (ChatPage.messages s) value (ChatPage.isTyping s).

(** [handleSendMessage], up to its [setTimeout]. *)
Definition handleSendMessage (now : N) (s : ChatPage.State)
  : ChatPage.State * list Timer :=
  if negb (Js.truthy (Js.trim (ChatPage.inputMessage s))) then (s, [])
  else
    let userMessage :=
      mkMessage (length (ChatPage.messages s) + 1) user (ChatPage.inputMessage s) now in
    (ChatPage.mkState (ChatPage.messages s ++ [userMessage]) [] true,
     [ReplyTimer (length (ChatPage.messages s))]).

(** The callback, run at [now] on the state of that moment. *)
Definition fireTimer (t : Timer) (now : N) (s : ChatPage.State) : ChatPage.State :=
  match t with
  | ReplyTimer length0 =>
      let botMessage := mkMessage (length0 + 2) bot cannedReply now in
      ChatPage.mkState (ChatPage.messages s ++ [botMessage])
                       (ChatPage.inputMessage s) false
  end.

(** The mounted chat page: session status, hook state, pending timers. *)
Record World := mkWorld {
  status : Status;
  page : ChatPage.State;
  timers : list Timer
}.

Definition initialWorld (st : Status) (now : N) : World :=
  mkWorld st (initialState now) [].

(** The input box is rendered and enabled. *)
Definition inputEnabled (w : World) : Prop :=
  exists m, ChatPage.Page (status w) (page w) = MainContent m /\
            ChatPage.inputDisabled m = false.

Inductive step : World -> World -> Prop :=
| step_session (w : World) (st : Status) :
    step w (mkWorld st (page w) (timers w))
| step_type (w : World) (value : Js.str) :
    inputEnabled w ->
    step w (mkWorld (status w) (handleInputChange value (page w)) (timers w))
| step_send (w : World) (now : N) (s' : ChatPage.State) (ts : list Timer) :
    inputEnabled w ->
    handleSendMessage now (page w) = (s', ts) ->
    step w (mkWorld (status w) s' (timers w ++ ts))
| step_timer (w : World) (before after : list Timer) (t : Timer) (now : N) :
    timers w = before ++ t :: after ->
    step w (mkWorld (status w) (fireTimer t now (page w)) (before ++ after)).

Inductive reachable : World -> Prop :=
| reachable_init (st : Status) (now : N) : reachable (initialWorld st now)
| reachable_step (w w' : World) : reachable w -> step w w' -> reachable w'.

(** The senders of a transcript that starts with the bot and alternates. *)
Fixpoint alternating (n : nat) : list Sender :=
  match n with
  | 0 => []
  | S n' => alternating n' ++ [if Nat.even n' then bot else user]
  end.

(** The transcript is numbered by position and alternates between the bot
    and the user; the bot owes a reply exactly while it is typing. *)
Definition chatInv (w : World) : Prop :=
  1 <= length (ChatPage.messages (page w)) /\
  map id (ChatPage.messages (page w)) = seq 1 (length (ChatPage.messages (page w))) /\
  map type (ChatPage.messages (page w)) = alternating (length (ChatPage.messages (page w))) /\
  if ChatPage.isTyping (page w)
  then Nat.even (length (ChatPage.messages (page w))) = true /\
       timers w = [ReplyTimer (length (ChatPage.messages (page w)) - 1)]
  else Nat.even (length (ChatPage.messages (page w))) = false /\
       timers w = [].

End ChatEvents.

(* ================================================================== *)
(** * Properties *)

(** ** Blank input *)

Lemma trimStart_nil (s : Js.str) :
  Js.trimStart s = [] <-> forallb Js.isWhiteSpace s = true.
Proof.
  induction s as [|c s IH]; simpl.
  - tauto.
  - destruct (Js.isWhiteSpace c); simpl.
    + exact IH.
    + split; discriminate.
Qed.

Lemma trimStart_head (s : Js.str) (c : N) (r : Js.str) :
  Js.trimStart s = c :: r -> Js.isWhiteSpace c = false.
Proof.
  induction s as [|d s IH]; simpl.
  - discriminate.
  - destruct (Js.isWhiteSpace d) eqn:E.
    + exact IH.
    + intros H. injection H as -> _. exact E.
Qed.

Lemma forallb_rev {A} (f : A -> bool) (l : list A) :
  forallb f (rev l) = forallb f l.
Proof.
  induction l as [|a l IH]; simpl.
  - reflexivity.
  - rewrite forallb_app, IH. simpl. rewrite andb_true_r. apply andb_comm.
Qed.

(** [!s.trim()] holds exactly of the strings made of white space only. *)
Lemma blank_spec (s : Js.str) :
  negb (Js.truthy (Js.trim s)) = forallb Js.isWhiteSpace s.
Proof.
  unfold Js.trim, Js.trimEnd.
  destruct (forallb Js.isWhiteSpace s) eqn:E.
  - apply trimStart_nil in E. rewrite E. reflexivity.
  - destruct (Js.trimStart s) as [|c r] eqn:T.
    + apply trimStart_nil in T. congruence.
    + pose proof (trimStart_head _ _ _ T) as Hc.
      destruct (Js.trimStart (rev (c :: r))) as [|d q] eqn:U.
      * apply trimStart_nil in U. rewrite forallb_rev in U.
        simpl in U. rewrite Hc in U. discriminate.
      * simpl. destruct (rev q); reflexivity.
Qed.

Example isWhiteSpace_samples :
  map Js.isWhiteSpace [9; 13; 14; 32; 65; 160; 8192; 8202; 8203; 8232; 12288; 65279]%N
  = [true; true; false; true; false; true; true; true; false; true; true; true].
Proof. reflexivity. Qed.

Example trim_sample :
  Js.trim (Js.lit "  to Lisbon ") = Js.lit "to Lisbon".
Proof. reflexivity. Qed.

(** The early return of [handleSendMessage]. *)
Lemma handleSendMessage_blank (now : N) (s : State) :
  forallb Js.isWhiteSpace (inputMessage s) = true ->
  handleSendMessage now s = (s, []).
Proof.
  intros H. unfold handleSendMessage. rewrite blank_spec, H. reflexivity.
Qed.

(** C8.  Sending a blank message (empty, or white space only) changes
    nothing: [handleSendMessage] returns at its first line, the state of the
    page, and so the transcript, the trip record and the step index, is the
    one it was called on, and no timer is scheduled. *)
Theorem blank_message_is_noop (now : N) (s : State) :
  forallb Js.isWhiteSpace (inputMessage s) = true ->
  handleSendMessage now s = (s, []) /\
  messages (fst (handleSendMessage now s)) = messages s /\
  tripData (fst (handleSendMessage now s)) = tripData s /\
  stepIndex (fst (handleSendMessage now s)) = stepIndex s.
Proof.
  intros H.
  rewrite (handleSendMessage_blank now s H). simpl. auto.
Qed.

Lemma blank_message_is_noop_witness :
  handleSendMessage 5 blankDraft = (blankDraft, []) /\
  messages (fst (handleSendMessage 5 blankDraft)) = messages blankDraft /\
  tripData (fst (handleSendMessage 5 blankDraft)) = tripData blankDraft /\
  stepIndex (fst (handleSendMessage 5 blankDraft)) = stepIndex blankDraft.
Proof. apply (blank_message_is_noop 5 blankDraft). reflexivity. Defined.

(** ** Storing an answer *)

Lemma getField_setField_same (f : Field) (v : Js.str) (t : Trip) :
  getField f (setField f v t) = v.
Proof. destruct f; reflexivity. Qed.

Lemma getField_setField_other (f g : Field) (v : Js.str) (t : Trip) :
  g <> f -> getField g (setField f v t) = getField g t.
Proof. destruct f, g; intros H; try reflexivity; contradiction H; reflexivity. Qed.

(** The state an accepted message leaves, before the reply. *)
Lemma handleSendMessage_accepted (now : N) (s : State) :
  forallb Js.isWhiteSpace (inputMessage s) = false ->
  handleSendMessage now s =
  (mkState (stepIndex s)
           (match nth_error steps (stepIndex s) with
            | Some currentStep => setField (field currentStep) (inputMessage s) (tripData s)
            | None => tripData s
            end)
           (currentTrips s)
           (messages s ++ [mkMessage (length (messages s) + 1) user (inputMessage s) now])
           [] true (isSubmitting s) (hasShownInitialPrompt s),
   [FocusTimer; ReplyTimer (stepIndex s) (length (messages s))]).
Proof.
  intros H. unfold handleSendMessage. rewrite blank_spec, H. simpl.
  destruct (nth_error steps (stepIndex s)); reflexivity.
Qed.

(** The reply callback does not touch the trip record. *)
Lemma fireTimer_tripData (t : Timer) (now : N) (s : State) :
  tripData (fst (fireTimer t now s)) = tripData s.
Proof.
  destruct t as [| |i n]; simpl; try reflexivity.
  destruct (i <? _); reflexivity.
Qed.

(** C4.  An accepted answer at step index [i] is stored under the field that
    [steps[i]] names, and every other field of the trip record keeps its
    value; this holds right after [handleSendMessage] and still after its
    reply callback has run. *)
Theorem answer_stored_under_step_field (now later : N) (s : State) (st : Step) :
  forallb Js.isWhiteSpace (inputMessage s) = false ->
  nth_error steps (stepIndex s) = Some st ->
  tripData (fst (handleSendMessage now s))
    = setField (field st) (inputMessage s) (tripData s) /\
  tripData (answer now later s) = tripData (fst (handleSendMessage now s)) /\
  getField (field st) (tripData (answer now later s)) = inputMessage s /\
  forall g : Field, g <> field st ->
    getField g (tripData (answer now later s)) = getField g (tripData s).
Proof.
  intros Hin Hst.
  assert (E1 : tripData (fst (handleSendMessage now s))
               = setField (field st) (inputMessage s) (tripData s)).
  { rewrite (handleSendMessage_accepted now s Hin). simpl. now rewrite Hst. }
  assert (E2 : tripData (answer now later s) = tripData (fst (handleSendMessage now s))).
  { unfold answer. rewrite (handleSendMessage_accepted now s Hin).
    cbn [fold_left fst]. now rewrite !fireTimer_tripData. }
  repeat split; try assumption.
  - rewrite E2, E1. apply getField_setField_same.
  - intros g Hg. rewrite E2, E1. now apply getField_setField_other.
Qed.

Lemma answer_stored_under_step_field_witness :
  tripData (fst (handleSendMessage 4 budgetDraft))
    = mkTrip (Js.lit "Lisbon") (Js.lit "2000 EUR") [] [] [] [] [] [] /\
  tripData (answer 4 5 budgetDraft) = tripData (fst (handleSendMessage 4 budgetDraft)) /\
  getField Fbudget (tripData (answer 4 5 budgetDraft)) = Js.lit "2000 EUR" /\
  forall g : Field, g <> Fbudget ->
    getField g (tripData (answer 4 5 budgetDraft)) = getField g (tripData budgetDraft).
Proof.
  apply (answer_stored_under_step_field 4 5 budgetDraft
           (mkStep Fbudget (Js.lit "What's your budget for this trip?")));
    reflexivity.
Defined.

(** ** Stepping through the prompts *)

(** Every index the page reads [steps] at without a check is in range there. *)
Lemma promptAt_in_range (i : nat) :
  i < length steps ->
  exists st, nth_error steps i = Some st /\ promptAt i = prompt st.
Proof.
  intros H. unfold promptAt.
  destruct (nth_error steps i) as [st|] eqn:E.
  - exists st. split; reflexivity.
  - apply nth_error_None in E. lia.
Qed.

(** The state after an accepted message and its reply. *)
Lemma answer_accepted (now later : N) (s : State) :
  forallb Js.isWhiteSpace (inputMessage s) = false ->
  answer now later s =
  let stored :=
    match nth_error steps (stepIndex s) with
    | Some currentStep => setField (field currentStep) (inputMessage s) (tripData s)
    | None => tripData s
    end in
  let userMessage := mkMessage (length (messages s) + 1) user (inputMessage s) now in
  if stepIndex s <? length steps - 1 then
    mkState (stepIndex s + 1) stored (currentTrips s)
            (messages s ++ [userMessage]
               ++ [mkMessage (length (messages s) + 2) bot (promptAt (stepIndex s + 1)) later])
            [] false (isSubmitting s) (hasShownInitialPrompt s)
  else
    mkState (stepIndex s) stored (currentTrips s)
            (messages s ++ [userMessage]
               ++ [mkMessage (length (messages s) + 2) bot completionMessage later])
            [] false (isSubmitting s) (hasShownInitialPrompt s).
Proof.
  intros H. unfold answer. rewrite (handleSendMessage_accepted now s H).
  cbn [fold_left fst fireTimer].
  destruct (stepIndex s <? length steps - 1);
    unfold pushMessage; cbn; rewrite <- app_assoc; reflexivity.
Qed.

(** X15.  The wizard when nothing happens between a message and its reply
    ([answer]): an accepted answer at step index [i < 7] is followed by the
    prompt of step [i + 1] and moves the index to [i + 1], whatever the
    answer says; at step index 7 the index stays and the fixed completion
    message is shown.  What the callback does when a submission settles
    before it is in [reply_in_reachable_world] and
    [accepted_answer_can_leave_the_index_behind]. *)
Theorem prompts_are_a_fixed_sequence (now later : N) (s : State) :
  forallb Js.isWhiteSpace (inputMessage s) = false ->
  let i := stepIndex s in
  let userMessage := mkMessage (length (messages s) + 1) user (inputMessage s) now in
  (i < 7 ->
   stepIndex (answer now later s) = i + 1 /\
   exists next, nth_error steps (i + 1) = Some next /\
     messages (answer now later s) =
     messages s ++ [userMessage;
                    mkMessage (length (messages s) + 2) bot (prompt next) later]) /\
  (i = 7 ->
   stepIndex (answer now later s) = 7 /\
   messages (answer now later s) =
   messages s ++ [userMessage;
                  mkMessage (length (messages s) + 2) bot completionMessage later]).
Proof.
  intros H i userMessage. subst i userMessage.
  rewrite (answer_accepted now later s H). cbv zeta.
  change (length steps - 1) with 7.
  split; intros Hi.
  - destruct (Nat.ltb_spec (stepIndex s) 7) as [_|Hge]; [|lia].
    split; [reflexivity|].
    destruct (promptAt_in_range (stepIndex s + 1)) as (next & Hn & Hp).
    { change (length steps) with 8. lia. }
    exists next. split; [exact Hn|]. cbn [messages]. rewrite Hp. reflexivity.
  - rewrite Hi. split; reflexivity.
Qed.

Lemma prompts_are_a_fixed_sequence_witness :
  stepIndex (answer 4 5 budgetDraft) = 2 /\
  exists next, nth_error steps 2 = Some next /\
    messages (answer 4 5 budgetDraft) =
    messages budgetDraft
      ++ [mkMessage 5 user (Js.lit "2000 EUR") 4; mkMessage 6 bot (prompt next) 5].
Proof.
  apply (prompts_are_a_fixed_sequence 4 5 budgetDraft); [reflexivity | cbn; lia].
Defined.

(** ** Adding another trip *)

(** C5.  [handleAddAnotherTrip] appends the current trip record to the
    accumulated list, resets the eight fields of the record to the empty
    string, resets the step index to 0 and shows the first prompt again. *)
Theorem add_another_trip_restarts (now : N) (s : State) :
  let s' := fst (handleAddAnotherTrip now s) in
  currentTrips s' = currentTrips s ++ [tripData s] /\
  tripData s' = mkTrip [] [] [] [] [] [] [] [] /\
  (forall f : Field, getField f (tripData s') = []) /\
  stepIndex s' = 0 /\
  nth_error steps (stepIndex s') = Some (mkStep Fdestination (Js.lit "Where would you like to go?")) /\
  messages s' =
    messages s ++ [mkMessage (length (messages s) + 1) bot
                             (Js.lit "Where would you like to go?") now].
Proof.
  cbn. repeat split. intros f. destruct f; reflexivity.
Qed.

(** ** Submitting the trips *)

(** The run of the [try] block, call by call. *)
Lemma submitRequests_run (allTrips : list Trip) (net : Network) :
  submitRequests allTrips net [] =
  match sessionToken net with
  | None => ([], Throws)
  | Some token =>
      let check := checkUserRequest token in
      let register := registerUserRequest token in
      let submit := submitTripsRequest allTrips in
      match respond net [] check with
      | Throws => ([check], Throws)
      | Returns checkRes =>
          if userExists checkRes
          then ([check; submit], settled (respond net [check] submit))
          else
            match respond net [check] register with
            | Throws => ([check; register], Throws)
            | Returns _ =>
                ([check; register; submit],
                 settled (respond net [check; register] submit))
            end
      end
  end.
Proof.
  unfold submitRequests, sessionToken, bind, getSession, axios, ret, throw.
  destruct (session net) as [|se]; [reflexivity|].
  destruct (Auth.token se) as [t|]; [|reflexivity].
  destruct (Js.truthy t); [|reflexivity].
  cbn [negb app].
  destruct (respond net [] (checkUserRequest t)) as [|checkRes]; [reflexivity|].
  destruct (userExists checkRes); cbn [negb app].
  - destruct (respond net _ (submitTripsRequest allTrips)); reflexivity.
  - destruct (respond net _ (registerUserRequest t)); [reflexivity|].
    cbn [app].
    destruct (respond net _ (submitTripsRequest allTrips)); reflexivity.
Qed.

Lemma handleSubmitAllTrips_unfold (net : Network) (now : N) (s : State) :
  handleSubmitAllTrips net now s =
  (submitSettle (snd (submitRequests (currentTrips s ++ [tripData s]) net [])) now
                (setIsSubmitting true s),
   fst (submitRequests (currentTrips s ++ [tripData s]) net [])).
Proof.
  unfold handleSubmitAllTrips, submitStart.
  destruct (submitRequests _ net []); reflexivity.
Qed.


Lemma settled_returns (r : Result Response) :
  settled r = Returns tt <-> exists res, r = Returns res.
Proof.
  destruct r as [|res]; simpl; split.
  - discriminate.
  - intros [res H]. discriminate.
  - intros _. exists res. reflexivity.
  - reflexivity.
Qed.

(** The [try] block completes exactly when every call succeeds. *)
Lemma submitRequests_outcome (allTrips : list Trip) (net : Network) :
  snd (submitRequests allTrips net []) = Returns tt <-> allCallsSucceed net allTrips.
Proof.
  rewrite submitRequests_run. unfold sessionToken, allCallsSucceed.
  split.
  - destruct (session net) as [|se]; [discriminate|].
    destruct (Auth.token se) as [t|] eqn:Et; [|discriminate].
    destruct (Js.truthy t) eqn:Ett; [|discriminate].
    cbv zeta.
    destruct (respond net [] (checkUserRequest t)) as [|checkRes] eqn:Ec; [discriminate|].
    intros H. exists se, t, checkRes.
    repeat split; try assumption.
    { intros ->. discriminate. }
    cbv zeta.
    destruct (userExists checkRes).
    + apply settled_returns. exact H.
    + destruct (respond net _ (registerUserRequest t)) as [|res] eqn:Er; [discriminate|].
      split; [exists res; reflexivity|].
      apply settled_returns. exact H.
  - intros (se & t & checkRes & -> & -> & Hne & Hc & H).
    destruct t as [|c t]; [contradiction Hne; reflexivity|].
    cbn [Js.truthy]. cbv zeta in *. rewrite Hc.
    destruct (userExists checkRes).
    + apply settled_returns. exact H.
    + destruct H as [[res ->] H]. apply settled_returns. exact H.
Qed.

Lemma success_is_not_failure : successMessage <> failureMessage.
Proof. discriminate. Qed.

(** C2.  Every run of [handleSubmitAllTrips] appends exactly one message to
    the transcript, a bot message whose text is one of two fixed strings: the
    success string when every call succeeds, the failure string when a step
    throws (no token, or a failed call). *)
Theorem submission_appends_one_fixed_message (net : Network) (now : N) (s : State) :
  exists text,
    messages (fst (handleSubmitAllTrips net now s))
      = messages s ++ [mkMessage (length (messages s) + 1) bot text now] /\
    (text = successMessage \/ text = failureMessage) /\
    (text = successMessage <-> allCallsSucceed net (currentTrips s ++ [tripData s])) /\
    (text = failureMessage <-> ~ allCallsSucceed net (currentTrips s ++ [tripData s])).
Proof.
  rewrite handleSubmitAllTrips_unfold. cbn [fst].
  pose proof (submitRequests_outcome (currentTrips s ++ [tripData s]) net) as Hout.
  destruct (snd (submitRequests (currentTrips s ++ [tripData s]) net [])) as [|[]].
  - exists failureMessage. split; [reflexivity|].
    assert (Hno : ~ allCallsSucceed net (currentTrips s ++ [tripData s])).
    { intros H. apply Hout in H. discriminate. }
    split; [right; reflexivity|]. split; [|tauto].
    split; [|contradiction].
    intros H. symmetry in H. contradiction (success_is_not_failure H).
  - exists successMessage. split; [reflexivity|].
    assert (Hyes : allCallsSucceed net (currentTrips s ++ [tripData s])).
    { apply Hout. reflexivity. }
    split; [left; reflexivity|]. split; [tauto|].
    split; [|tauto].
    intros H. contradiction (success_is_not_failure H).
Qed.

(** C6.  The payload posted to the backend is [{ trips: allTrips }] with
    [allTrips] the accumulated list followed by the trip record in progress,
    each trip with its eight fields as collected: no request of the run
    carries any other trip list, the POST to the root URL is the only one
    with trips, and a run that does not throw has sent it, last. *)
Theorem submitted_payload_is_all_trips (net : Network) (now : N) (s : State) :
  let allTrips := currentTrips s ++ [tripData s] in
  let sent := snd (handleSubmitAllTrips net now s) in
  submitTripsRequest allTrips
    = mkRequest POST "http://localhost:8000" (Some (TripsBody (currentTrips s ++ [tripData s]))) None /\
  (forall r trips, In r sent -> body r = Some (TripsBody trips) ->
     trips = currentTrips s ++ [tripData s] /\ r = submitTripsRequest allTrips) /\
  (forall r, In r sent -> url r = "http://localhost:8000"%string ->
     body r = Some (TripsBody (currentTrips s ++ [tripData s]))) /\
  (allCallsSucceed net allTrips ->
     exists earlier, sent = earlier ++ [submitTripsRequest allTrips]).
Proof.
  cbv zeta. rewrite handleSubmitAllTrips_unfold. cbn [snd].
  split; [reflexivity|].
  pose proof (submitRequests_outcome (currentTrips s ++ [tripData s]) net) as Hout.
  rewrite submitRequests_run in *.
  destruct (sessionToken net) as [token|]; cbv zeta in *.
  2:{ cbn. repeat split; try contradiction.
      intros H. apply Hout in H. discriminate. }
  destruct (respond net [] (checkUserRequest token)) as [|checkRes].
  { cbn. split; [|split].
    - intros r trips [<-|[]] H. discriminate.
    - intros r [<-|[]] H. discriminate.
    - intros H. apply Hout in H. discriminate. }
  destruct (userExists checkRes).
  { cbn [fst snd] in *. split; [|split].
    - intros r trips [<-|[<-|[]]] H; [discriminate|].
      cbn in H. injection H as <-. split; reflexivity.
    - intros r [<-|[<-|[]]] H; [discriminate|reflexivity].
    - intros _. exists [checkUserRequest token]. reflexivity. }
  destruct (respond net _ (registerUserRequest token)).
  { cbn [fst snd] in *. split; [|split].
    - intros r trips [<-|[<-|[]]] H; discriminate.
    - intros r [<-|[<-|[]]] H; discriminate.
    - intros H. apply Hout in H. discriminate. }
  cbn [fst snd] in *. split; [|split].
  - intros r trips [<-|[<-|[<-|[]]]] H; try discriminate.
    cbn in H. injection H as <-. split; reflexivity.
  - intros r [<-|[<-|[<-|[]]]] H; try discriminate. reflexivity.
  - intros _. exists [checkUserRequest token; registerUserRequest token]. reflexivity.
Qed.

Lemma friendlyNetwork_succeeds (allTrips : list Trip) :
  allCallsSucceed friendlyNetwork allTrips.
Proof.
  apply submitRequests_outcome. reflexivity.
Qed.

Lemma submitted_payload_is_all_trips_witness :
  exists earlier,
    snd (handleSubmitAllTrips friendlyNetwork 9 completedDraft)
    = earlier ++ [submitTripsRequest (currentTrips completedDraft ++ [tripData completedDraft])].
Proof.
  apply (submitted_payload_is_all_trips friendlyNetwork 9 completedDraft).
  apply friendlyNetwork_succeeds.
Defined.

(** What [finally] leaves, whatever the outcome and whatever happened while
    the calls were pending. *)
Lemma submitSettle_resets (outcome : Result unit) (now : N) (s : State) :
  tripData (submitSettle outcome now s) = emptyTrip /\
  currentTrips (submitSettle outcome now s) = [] /\
  stepIndex (submitSettle outcome now s) = 0 /\
  isSubmitting (submitSettle outcome now s) = false.
Proof. destruct outcome; repeat split. Qed.

(** C10.  After every run of [handleSubmitAllTrips], successful or not, the
    trip record has all fields empty, the accumulated list is empty and the
    step index is 0; in particular a failed submission keeps none of the
    collected trips. *)
Theorem submission_always_clears_state (net : Network) (now : N) (s : State) :
  let s' := fst (handleSubmitAllTrips net now s) in
  tripData s' = mkTrip [] [] [] [] [] [] [] [] /\
  (forall f : Field, getField f (tripData s') = []) /\
  currentTrips s' = [] /\
  stepIndex s' = 0.
Proof.
  cbv zeta. rewrite handleSubmitAllTrips_unfold. cbn [fst].
  destruct (submitSettle_resets
              (snd (submitRequests (currentTrips s ++ [tripData s]) net [])) now
              (setIsSubmitting true s)) as (Ht & Hc & Hi & _).
  rewrite Ht, Hc, Hi. repeat split.
  intros f. destruct f; reflexivity.
Qed.

(** A failed run on [completedDraft]: two trips go in, none are left. *)
Example failed_submission_discards_trips :
  let s' := fst (handleSubmitAllTrips deadNetwork 9 completedDraft) in
  map content (messages s') = [greeting; failureMessage] /\
  length (currentTrips completedDraft ++ [tripData completedDraft]) = 2 /\
  currentTrips s' = [] /\ tripData s' = emptyTrip /\ stepIndex s' = 0.
Proof. repeat split. Qed.

(** ** From the answers to the payload *)

Lemma typeAndSend_accepted (now later : N) (s : State) (text : Js.str) :
  forallb Js.isWhiteSpace text = false ->
  stepIndex (typeAndSend now later s text)
    = (if stepIndex s <? length steps - 1 then stepIndex s + 1 else stepIndex s) /\
  tripData (typeAndSend now later s text)
    = match nth_error steps (stepIndex s) with
      | Some currentStep => setField (field currentStep) text (tripData s)
      | None => tripData s
      end /\
  currentTrips (typeAndSend now later s text) = currentTrips s.
Proof.
  intros H. unfold typeAndSend.
  rewrite answer_accepted by exact H. cbv zeta.
  cbn [handleInputChange setInputMessage stepIndex tripData inputMessage currentTrips].
  destruct (stepIndex s <? length steps - 1); repeat split.
Qed.

Lemma typeAndSend_at (now later : N) (s : State) (text : Js.str) (i : nat) (st : Step) :
  forallb Js.isWhiteSpace text = false ->
  stepIndex s = i ->
  nth_error steps i = Some st ->
  stepIndex (typeAndSend now later s text)
    = (if i <? length steps - 1 then i + 1 else i) /\
  tripData (typeAndSend now later s text) = setField (field st) text (tripData s) /\
  currentTrips (typeAndSend now later s text) = currentTrips s.
Proof.
  intros H Hi Hst.
  destruct (typeAndSend_accepted now later s text H) as (E1 & E2 & E3).
  rewrite Hi in E1, E2. rewrite Hst in E2. auto.
Qed.

(** Eight accepted answers given from the first prompt fill the trip record,
    field by field in the order of [steps], and leave the wizard at its last
    step. *)
Lemma wizard_collects_trip (now later : N) (s : State)
      (a0 a1 a2 a3 a4 a5 a6 a7 : Js.str) :
  stepIndex s = 0 ->
  forallb (fun a => negb (forallb Js.isWhiteSpace a)) [a0; a1; a2; a3; a4; a5; a6; a7] = true ->
  let s' := fold_left (typeAndSend now later) [a0; a1; a2; a3; a4; a5; a6; a7] s in
  tripData s' = mkTrip a0 a1 a2 a3 a4 a5 a6 a7 /\
  stepIndex s' = 7 /\
  currentTrips s' = currentTrips s.
Proof.
  intros I0 Hall. cbn [forallb] in Hall.
  repeat rewrite andb_true_iff in Hall. repeat rewrite negb_true_iff in Hall.
  destruct Hall as (H0 & H1 & H2 & H3 & H4 & H5 & H6 & H7 & _).
  cbn [fold_left]. cbv zeta.
  destruct (typeAndSend_at now later s a0 0 _ H0 I0 eq_refl) as (I1 & T1 & C1).
  destruct (typeAndSend_at now later _ a1 1 _ H1 I1 eq_refl) as (I2 & T2 & C2).
  destruct (typeAndSend_at now later _ a2 2 _ H2 I2 eq_refl) as (I3 & T3 & C3).
  destruct (typeAndSend_at now later _ a3 3 _ H3 I3 eq_refl) as (I4 & T4 & C4).
  destruct (typeAndSend_at now later _ a4 4 _ H4 I4 eq_refl) as (I5 & T5 & C5).
  destruct (typeAndSend_at now later _ a5 5 _ H5 I5 eq_refl) as (I6 & T6 & C6).
  destruct (typeAndSend_at now later _ a6 6 _ H6 I6 eq_refl) as (I7 & T7 & C7).
  destruct (typeAndSend_at now later _ a7 7 _ H7 I7 eq_refl) as (I8 & T8 & C8).
  rewrite T8, T7, T6, T5, T4, T3, T2, T1, I8, C8, C7, C6, C5, C4, C3, C2, C1.
  repeat split.
Qed.

(** ** The session gate *)

(** The landing page is public: it renders its content without looking at
    the session. *)
Lemma landing_is_public (status : Status) :
  render Landing status tt = Content.
Proof. reflexivity. Qed.

(** The components that do not read the session are not gated at all: they
    render their content under every status.  So [usesSession] leaves no
    gated page out. *)
Lemma ungated_pages_ignore_the_session (p : PageComponent) (props : Props p) :
  usesSession p = false ->
  p = Landing /\ forall status, render p status props = Content.
Proof.
  intros H. destruct p; try discriminate H. split; reflexivity.
Qed.

(** C7.  Every gated page (every component that reads the session: the
    create page, the dashboard, the menu page and the chat page) shows its
    main content only under an authenticated session: with the status
    "unauthenticated" it renders its access-required view (the request to
    log in) and not its content, with "loading" its loading view, and so it
    renders its content only when the status is "authenticated". *)
Theorem gated_pages_need_a_session (p : PageComponent) (props : Props p) :
  usesSession p = true ->
  render p unauthenticated props = AccessRequired /\
  render p loading props = Loading /\
  (forall status, render p status props = Content <-> status = authenticated).
Proof.
  intros H. destruct p; try discriminate H; cbn;
    (split; [reflexivity|]; split; [reflexivity|];
     intros status; destruct status; cbn; split; intros E;
     reflexivity || discriminate E).
Qed.

Lemma gated_pages_need_a_session_witness :
  render Menu unauthenticated
         (Some (MenuPage.mkSession (MenuPage.mkUser (Some (Js.lit "ada")) None)))
    = AccessRequired /\
  render Menu loading
         (Some (MenuPage.mkSession (MenuPage.mkUser (Some (Js.lit "ada")) None)))
    = Loading /\
  (forall status,
     render Menu status
            (Some (MenuPage.mkSession (MenuPage.mkUser (Some (Js.lit "ada")) None)))
       = Content <-> status = authenticated).
Proof.
  apply (gated_pages_need_a_session Menu
           (Some (MenuPage.mkSession (MenuPage.mkUser (Some (Js.lit "ada")) None)))).
  reflexivity.
Defined.

(** The same on the create page, in the state [completedDraft]. *)
Example create_page_is_gated :
  CreatePage.Page unauthenticated completedDraft = AccessRequiredView /\
  CreatePage.Page loading completedDraft = LoadingView /\
  kind (CreatePage.Page authenticated completedDraft) = Content.
Proof. repeat split. Qed.

(** ** The bound on the step index *)

Lemma pendingReplies_app (a b : list Timer) :
  pendingReplies (a ++ b) = pendingReplies a ++ pendingReplies b.
Proof.
  induction a as [|t a IH]; simpl.
  - reflexivity.
  - destruct t; simpl; rewrite IH; reflexivity.
Qed.

(** The input box is enabled only while the bot is not typing. *)
Lemma offered_input (w : World) :
  offered w (fun m => negb (CreatePage.inputDisabled m)) ->
  status w = authenticated /\ isTyping (page w) = false.
Proof.
  intros (m & Hm & He). unfold CreatePage.Page in Hm.
  destruct (status w); cbn in Hm; try discriminate Hm.
  injection Hm as <-. cbn in He.
  split; [reflexivity|]. now apply negb_true_iff in He.
Qed.

(** The two trip buttons are there only at the last step, while the bot is
    not typing. *)
Lemma offered_tripButtons (w : World) (also : CreatePage.Main -> bool) :
  offered w (fun m => CreatePage.tripButtons m && also m) ->
  status w = authenticated /\
  stepIndex (page w) = length steps - 1 /\ isTyping (page w) = false.
Proof.
  intros (m & Hm & He). unfold CreatePage.Page in Hm.
  destruct (status w); cbn in Hm; try discriminate Hm.
  injection Hm as <-. cbn in He.
  apply andb_prop in He. destruct He as [He _].
  apply andb_prop in He. destruct He as [Hi Ht].
  split; [reflexivity|].
  split; [now apply Nat.eqb_eq in Hi | now apply negb_true_iff in Ht].
Qed.

(** While the bot is not typing no reply is pending. *)
Lemma wizardInv_idle (w : World) :
  wizardInv w -> isTyping (page w) = false -> pendingReplies (timers w) = [].
Proof.
  intros [_ H] Ht.
  destruct (pendingReplies (timers w)) as [|i [|j r]].
  - reflexivity.
  - destruct H as [H _]. congruence.
  - contradiction.
Qed.

Lemma wizardInv_init (st : Status) (now : N) : wizardInv (initialWorld st now).
Proof. split; cbn; [lia | exact I]. Qed.

Lemma wizardInv_step (w w' : World) : wizardInv w -> step w w' -> wizardInv w'.
Proof.
  intros Hinv Hstep. pose proof Hinv as [Hle Hp].
  destruct Hstep as
    [ w st
    | w s' ts Heff
    | w value Hoff
    | w now s' ts Hoff Hsend
    | w now s' ts Hoff Hadd
    | w s' allTrips Hoff Hsub
    | w before after allTrips net now Hin
    | w before after t now s' ts Htm Hfire ];
    unfold wizardInv; cbn [page timers].
  - (* session *) exact Hinv.
  - (* effect *)
    unfold initialPromptEffect in Heff.
    destruct (_ && _) in Heff; injection Heff as <- <-;
      rewrite pendingReplies_app; cbn; rewrite app_nil_r; exact Hinv.
  - (* typing into the box *) exact Hinv.
  - (* send *)
    apply offered_input in Hoff. destruct Hoff as [_ Hidle].
    pose proof (wizardInv_idle w Hinv Hidle) as Hnone.
    rewrite pendingReplies_app, Hnone. cbn [app].
    destruct (forallb Js.isWhiteSpace (inputMessage (page w))) eqn:Hb.
    + rewrite (handleSendMessage_blank now (page w) Hb) in Hsend. injection Hsend as <- <-. cbn.
      split; [exact Hle | exact I].
    + rewrite (handleSendMessage_accepted now (page w) Hb) in Hsend.
      injection Hsend as <- <-. cbn.
      split; [exact Hle | split; [reflexivity | left; reflexivity]].
  - (* add another trip *)
    assert (Hidle : isTyping (page w) = false).
    { destruct (offered_tripButtons w (fun _ => true)) as (_ & _ & H); [|exact H].
      destruct Hoff as (m & Hm & He). exists m. split; [exact Hm|].
      now rewrite He. }
    pose proof (wizardInv_idle w Hinv Hidle) as Hnone.
    rewrite pendingReplies_app, Hnone.
    unfold handleAddAnotherTrip in Hadd. injection Hadd as <- <-. cbn.
    split; [lia | exact I].
  - (* submit pressed *)
    unfold submitStart in Hsub. injection Hsub as <- _. exact Hinv.
  - (* submission settles *)
    destruct (submitSettle_resets (snd (submitRequests allTrips net [])) now (page w))
      as (_ & _ & Hi & _).
    rewrite Hi. split; [lia|].
    destruct (pendingReplies (timers w)) as [|i [|j r]]; try exact Hp.
    destruct Hp as [Ht _]. split; [|right; reflexivity].
    destruct (snd (submitRequests allTrips net [])); exact Ht.
  - (* a timer fires *)
    rewrite Htm, pendingReplies_app in Hp.
    rewrite !pendingReplies_app.
    destruct t as [| |i n]; cbn [fireTimer] in Hfire.
    + injection Hfire as <- <-. cbn in *. rewrite app_nil_r.
      split; [exact Hle | exact Hp].
    + injection Hfire as <- <-. cbn in *. rewrite app_nil_r.
      split; [exact Hle | exact Hp].
    + cbn [pendingReplies] in Hp.
      destruct (pendingReplies before) as [|b0 bs].
      2:{ cbn in Hp. destruct bs; contradiction. }
      destruct (pendingReplies after) as [|a0 as_].
      2:{ cbn in Hp. contradiction. }
      cbn in Hp. destruct Hp as [_ Hcur].
      destruct (Nat.ltb_spec i (length steps - 1)) as [Hlt|Hge];
        injection Hfire as <- <-; cbn in *.
      * split; [lia | exact I].
      * split; [exact Hle | exact I].
Qed.

Lemma reachable_wizardInv (w : World) : reachable w -> wizardInv w.
Proof.
  induction 1 as [st now | w w' _ IH Hstep].
  - apply wizardInv_init.
  - exact (wizardInv_step w w' IH Hstep).
Qed.

(** How an event can change the step index: not at all, back to 0, or up by
    one from below the last step. *)
Lemma step_stepIndex (w w' : World) :
  wizardInv w -> step w w' ->
  stepIndex (page w') = stepIndex (page w) \/
  stepIndex (page w') = 0 \/
  (stepIndex (page w) < length steps - 1 /\
   stepIndex (page w') = stepIndex (page w) + 1).
Proof.
  intros Hinv Hstep. pose proof Hinv as [Hle Hp].
  destruct Hstep as
    [ w st
    | w s' ts Heff
    | w value Hoff
    | w now s' ts Hoff Hsend
    | w now s' ts Hoff Hadd
    | w s' allTrips Hoff Hsub
    | w before after allTrips net now Hin
    | w before after t now s' ts Htm Hfire ];
    cbn [page].
  - left; reflexivity.
  - unfold initialPromptEffect in Heff.
    destruct (_ && _) in Heff; injection Heff as <- _; left; reflexivity.
  - left; reflexivity.
  - destruct (forallb Js.isWhiteSpace (inputMessage (page w))) eqn:Hb.
    + rewrite (handleSendMessage_blank now (page w) Hb) in Hsend. injection Hsend as <- _. left; reflexivity.
    + rewrite (handleSendMessage_accepted now (page w) Hb) in Hsend.
      injection Hsend as <- _. left; reflexivity.
  - unfold handleAddAnotherTrip in Hadd. injection Hadd as <- _.
    right; left; reflexivity.
  - unfold submitStart in Hsub. injection Hsub as <- _. left; reflexivity.
  - right; left.
    apply (submitSettle_resets (snd (submitRequests allTrips net [])) now (page w)).
  - rewrite Htm, pendingReplies_app in Hp.
    destruct t as [| |i n]; cbn [fireTimer] in Hfire.
    + injection Hfire as <- _. left; reflexivity.
    + injection Hfire as <- _. left; reflexivity.
    + cbn [pendingReplies] in Hp.
      destruct (pendingReplies before) as [|b0 bs].
      2:{ cbn in Hp. destruct bs; contradiction. }
      destruct (pendingReplies after) as [|a0 as_].
      2:{ cbn in Hp. contradiction. }
      cbn in Hp. destruct Hp as [_ Hcur].
      destruct (Nat.ltb_spec i (length steps - 1)) as [Hlt|Hge];
        injection Hfire as <- _; cbn in *.
      * right; right. split; [lia | reflexivity].
      * left; reflexivity.
Qed.

(** C9.  In every state the page can reach, the step index lies between 0
    and [steps.length - 1], that is 7: it starts at 0, and an event either
    leaves it alone, resets it to 0, or increments it from a value below
    [steps.length - 1]. *)
Theorem stepIndex_stays_in_range (w : World) :
  reachable w ->
  0 <= stepIndex (page w) <= length steps - 1 /\
  length steps - 1 = 7 /\
  (forall st now, stepIndex (page (initialWorld st now)) = 0) /\
  (forall w', step w w' ->
     stepIndex (page w') = stepIndex (page w) \/
     stepIndex (page w') = 0 \/
     (stepIndex (page w) < length steps - 1 /\
      stepIndex (page w') = stepIndex (page w) + 1)).
Proof.
  intros Hr. pose proof (reachable_wizardInv w Hr) as Hinv.
  split; [split; [lia | exact (proj1 Hinv)]|].
  split; [reflexivity|].
  split; [reflexivity|].
  intros w' Hstep. exact (step_stepIndex w w' Hinv Hstep).
Qed.

(** The wizard does get to its last step: seven answers from the initial
    state lead there, and the bound holds with equality. *)
Lemma stepIndex_stays_in_range_witness :
  exists w,
    reachable w /\ stepIndex (page w) = 7 /\
    0 <= stepIndex (page w) <= length steps - 1.
Proof.
  pose proof (reachable_init authenticated 0) as R.
  userAnswers R (Js.lit "Lisbon") 1%N.
  userAnswers R (Js.lit "2000") 2%N.
  userAnswers R (Js.lit "2025-05-01") 3%N.
  userAnswers R (Js.lit "2025-05-08") 4%N.
  userAnswers R (Js.lit "2") 5%N.
  userAnswers R (Js.lit "none") 6%N.
  userAnswers R (Js.lit "food") 7%N.
  eexists. split; [exact R|]. split; [reflexivity|].
  apply (stepIndex_stays_in_range _ R).
Defined.

(** ** The reply callback among other events *)

(** Whenever the reply to an answer given at step [i < 7] comes, in whatever
    state the page then is, the prompt shown is the one of step [i + 1].  The
    index goes to [i + 1] as well, unless a submission that was in flight has
    settled since the answer was sent and reset the wizard: then it goes
    from 0 to 1. *)
Lemma reply_in_reachable_world (w : World) (before after : list Timer)
      (i n : nat) (now : N) :
  reachable w ->
  timers w = before ++ ReplyTimer i n :: after ->
  i < length steps - 1 ->
  let s' := fst (fireTimer (ReplyTimer i n) now (page w)) in
  (exists next, nth_error steps (i + 1) = Some next /\
     messages s' = messages (page w) ++ [mkMessage (n + 2) bot (prompt next) now]) /\
  (stepIndex s' = i + 1 \/ stepIndex (page w) = 0 /\ stepIndex s' = 1).
Proof.
  intros Hr Htm Hi. destruct (reachable_wizardInv w Hr) as [_ Hp].
  rewrite Htm, pendingReplies_app in Hp. cbn [pendingReplies] in Hp.
  destruct (pendingReplies before) as [|b0 bs].
  2:{ cbn in Hp. destruct bs; contradiction. }
  destruct (pendingReplies after) as [|a0 as_].
  2:{ cbn in Hp. contradiction. }
  cbn in Hp. destruct Hp as [_ Hcur].
  cbn [fireTimer]. destruct (Nat.ltb_spec i (length steps - 1)) as [_|Hge]; [|lia].
  cbn. split.
  - destruct (promptAt_in_range (i + 1)) as (next & Hn & Hpr).
    { change (length steps) with 8. change (length steps - 1) with 7 in Hi. lia. }
    exists next. split; [exact Hn|]. rewrite Hpr. reflexivity.
  - destruct Hcur as [->| ->]; [left; reflexivity | right; split; reflexivity].
Qed.

(** The second case occurs: a submission is started at the last step, the
    user adds another trip and answers its first two questions while the
    backend is still busy, and the submission fails before the second reply
    comes.  The reply then shows the third prompt with the index at 1. *)
Example reply_after_a_settled_submission :
  exists w,
    reachable w /\
    stepIndex (page w) = 1 /\
    option_map content (last (map Some (messages (page w))) None)
      = option_map prompt (nth_error steps 2) /\
    tripData (page w) = emptyTrip.
Proof.
  pose proof (reachable_init authenticated 0) as R.
  userAnswers R (Js.lit "Lisbon") 1%N.
  userAnswers R (Js.lit "2000") 2%N.
  userAnswers R (Js.lit "2025-05-01") 3%N.
  userAnswers R (Js.lit "2025-05-08") 4%N.
  userAnswers R (Js.lit "2") 5%N.
  userAnswers R (Js.lit "none") 6%N.
  userAnswers R (Js.lit "food") 7%N.
  userSubmits R.
  userAddsTrip R 8%N. timerFires R 8%N.
  userAnswers R (Js.lit "Oslo") 9%N.
  userTypes R (Js.lit "900"). userSends R 10%N.
  submissionSettles R deadNetwork 11%N.
  timerFires R 12%N. timerFires R 12%N.
  eexists. split; [exact R|]. repeat split.
Qed.

(* ================================================================== *)
(** * Further properties *)

(** ** From typing to the payload *)

Lemma fillIn_spec (now later : N) (s : State) (t : Trip) :
  stepIndex s = 0 ->
  answerable t = true ->
  tripData (fillIn now later s t) = t /\
  stepIndex (fillIn now later s t) = 7 /\
  currentTrips (fillIn now later s t) = currentTrips s.
Proof.
  intros H0 Ha.
  destruct (wizard_collects_trip now later s
              (destination t) (budget t) (startDate t) (endDate t)
              (travelers t) (accessibility t) (interests t) (notes t) H0 Ha)
    as (Ht & Hi & Hc).
  unfold fillIn, answersOf. rewrite Ht, Hi, Hc.
  destruct t; repeat split.
Qed.

Lemma enterTrips_spec (now later : N) (more : list Trip) :
  forall (s : State) (first : Trip),
    stepIndex s = 0 ->
    answerable first = true ->
    forallb answerable more = true ->
    stepIndex (enterTrips now later s first more) = 7 /\
    currentTrips (enterTrips now later s first more)
      ++ [tripData (enterTrips now later s first more)]
    = currentTrips s ++ first :: more.
Proof.
  induction more as [|t more IH]; intros s first H0 Hf Hm.
  - destruct (fillIn_spec now later s first H0 Hf) as (Ht & Hi & Hc).
    cbn [enterTrips]. rewrite Ht, Hi, Hc. split; reflexivity.
  - cbn [forallb] in Hm. apply andb_prop in Hm. destruct Hm as [Ht Hm].
    destruct (fillIn_spec now later s first H0 Hf) as (Etd & _ & Ect).
    cbn [enterTrips].
    destruct (IH (fst (handleAddAnotherTrip later (fillIn now later s first))) t
                 eq_refl Ht Hm) as (Hi & Hall).
    split; [exact Hi|].
    rewrite Hall. cbn [handleAddAnotherTrip fst currentTrips pushMessage
                       setMessages setStepIndex setTripData setCurrentTrips].
    rewrite Etd, Ect, <- app_assoc. reflexivity.
Qed.

(** A run in which every call succeeds ends with the POST of the trips. *)
Lemma succeeding_run_ends_with_trips (net : Network) (allTrips : list Trip) :
  allCallsSucceed net allTrips ->
  exists earlier,
    fst (submitRequests allTrips net []) = earlier ++ [submitTripsRequest allTrips].
Proof.
  intros H. apply submitRequests_outcome in H.
  rewrite submitRequests_run in *.
  destruct (sessionToken net) as [token|]; [|discriminate H].
  cbv zeta in *.
  destruct (respond net [] (checkUserRequest token)) as [|checkRes]; [discriminate H|].
  destruct (userExists checkRes).
  - exists [checkUserRequest token]. reflexivity.
  - destruct (respond net _ (registerUserRequest token)); [discriminate H|].
    exists [checkUserRequest token; registerUserRequest token]. reflexivity.
Qed.

(** X1.  What is posted is what was typed, when the handlers run one after
    the other with no other event in between ([enterTrips]: each message is
    followed by its reply before the next one, and no submission settles
    during the entry): if the user enters one trip or more from the first
    prompt, each field answered with an accepted text and "Add Another Trip"
    pressed between two trips, the wizard ends at its last step, and a
    submission started then whose calls all succeed ends with the POST of
    exactly these trips, after the ones already set aside, in the order
    entered. *)
Theorem entered_trips_are_posted (now later at_ : N) (net : Network)
        (s : State) (first : Trip) (more : list Trip) :
  stepIndex s = 0 ->
  answerable first = true ->
  forallb answerable more = true ->
  allCallsSucceed net (currentTrips s ++ first :: more) ->
  let s' := enterTrips now later s first more in
  stepIndex s' = length steps - 1 /\
  exists earlier,
    snd (handleSubmitAllTrips net at_ s')
    = earlier ++ [mkRequest POST "http://localhost:8000"
                            (Some (TripsBody (currentTrips s ++ first :: more))) None].
Proof.
  intros H0 Hf Hm Hnet. cbv zeta.
  destruct (enterTrips_spec now later more s first H0 Hf Hm) as (Hi & Hall).
  split; [exact Hi|].
  rewrite handleSubmitAllTrips_unfold. cbn [snd]. rewrite Hall.
  exact (succeeding_run_ends_with_trips net _ Hnet).
Qed.

Lemma entered_trips_are_posted_witness :
  stepIndex (enterTrips 1 2 (initialState 0) (tripData completedDraft)
                        (currentTrips completedDraft)) = 7 /\
  exists earlier,
    snd (handleSubmitAllTrips friendlyNetwork 3
           (enterTrips 1 2 (initialState 0) (tripData completedDraft)
                       (currentTrips completedDraft)))
    = earlier ++ [mkRequest POST "http://localhost:8000"
                            (Some (TripsBody (tripData completedDraft
                                              :: currentTrips completedDraft))) None].
Proof.
  apply (entered_trips_are_posted 1 2 3 friendlyNetwork (initialState 0)
           (tripData completedDraft) (currentTrips completedDraft));
    try reflexivity.
  apply friendlyNetwork_succeeds.
Defined.

(** ** The reply callback in a running page *)

(** A reply timer that is pending is the only one. *)
Lemma pending_reply_is_alone (w : World) (before after : list Timer) (i n : nat) :
  reachable w ->
  timers w = before ++ ReplyTimer i n :: after ->
  pendingReplies (before ++ after) = [] /\
  (stepIndex (page w) = i \/ stepIndex (page w) = 0).
Proof.
  intros Hr Htm. destruct (reachable_wizardInv w Hr) as [_ Hp].
  rewrite Htm, pendingReplies_app in Hp. cbn [pendingReplies] in Hp.
  rewrite pendingReplies_app.
  destruct (pendingReplies before) as [|b0 bs].
  2:{ cbn in Hp. destruct bs; contradiction. }
  destruct (pendingReplies after) as [|a0 as_].
  2:{ cbn in Hp. contradiction. }
  cbn in Hp. split; [reflexivity | apply Hp].
Qed.

(** X2.  When the reply to a message sent at step [i] comes in a running
    page, whatever happened since the message was sent: the typing indicator
    goes off, no other reply is pending, the trip record is not touched, and
    exactly one bot message is appended.  For [i < 7] it is the prompt of
    step [i + 1], and the index goes to [i + 1], or from 0 to 1 if a
    submission has reset the wizard in between; for [i >= 7] it is the
    completion message and the index stays. *)
Theorem reply_among_other_events (w : World) (before after : list Timer)
        (i n : nat) (now : N) :
  reachable w ->
  timers w = before ++ ReplyTimer i n :: after ->
  let s' := fst (fireTimer (ReplyTimer i n) now (page w)) in
  isTyping s' = false /\
  pendingReplies (before ++ after ++ snd (fireTimer (ReplyTimer i n) now (page w))) = [] /\
  tripData s' = tripData (page w) /\
  (i < length steps - 1 ->
   (exists next, nth_error steps (i + 1) = Some next /\
      messages s' = messages (page w) ++ [mkMessage (n + 2) bot (prompt next) now]) /\
   (stepIndex s' = i + 1 \/ stepIndex (page w) = 0 /\ stepIndex s' = 1)) /\
  (length steps - 1 <= i ->
   messages s' = messages (page w) ++ [mkMessage (n + 2) bot completionMessage now] /\
   stepIndex s' = stepIndex (page w)).
Proof.
  intros Hr Htm. cbv zeta.
  destruct (pending_reply_is_alone w before after i n Hr Htm) as [Halone _].
  rewrite pendingReplies_app in Halone. apply app_eq_nil in Halone.
  destruct Halone as [Hb Ha].
  split; [|split; [|split; [|split]]].
  - cbn [fireTimer]. destruct (i <? _); reflexivity.
  - rewrite !pendingReplies_app, Hb, Ha.
    cbn [fireTimer]. destruct (i <? _); reflexivity.
  - apply fireTimer_tripData.
  - intros Hi. exact (reply_in_reachable_world w before after i n now Hr Htm Hi).
  - intros Hi. cbn [fireTimer].
    destruct (Nat.ltb_spec i (length steps - 1)) as [Hlt|_]; [lia|].
    split; reflexivity.
Qed.

Lemma reply_among_other_events_witness :
  exists w,
    reachable w /\
    timers w = [FocusTimer] ++ ReplyTimer 0 1 :: [] /\
    isTyping (fst (fireTimer (ReplyTimer 0 1) 9 (page w))) = false.
Proof.
  pose proof (reachable_init authenticated 0) as R.
  userTypes R (Js.lit "Lisbon"). userSends R 1%N.
  eexists. split; [exact R|]. split; [reflexivity|].
  apply (reply_among_other_events _ [FocusTimer] [] 0 1 9%N R eq_refl).
Defined.

(** ** The transcript *)

(** An event appends at most one message and changes none. *)
Lemma step_transcript (w w' : World) :
  step w w' ->
  exists added, messages (page w') = messages (page w) ++ added /\ length added <= 1.
Proof.
  intros Hstep.
  destruct Hstep as
    [ w st
    | w s' ts Heff
    | w value Hoff
    | w now s' ts Hoff Hsend
    | w now s' ts Hoff Hadd
    | w s' allTrips Hoff Hsub
    | w before after allTrips net now Hin
    | w before after t now s' ts Htm Hfire ];
    cbn [page].
  - exists []. rewrite app_nil_r. split; [reflexivity | cbn; lia].
  - unfold initialPromptEffect in Heff.
    destruct (_ && _) in Heff; injection Heff as <- _;
      exists []; rewrite app_nil_r; split; try reflexivity; cbn; lia.
  - exists []. rewrite app_nil_r. split; [reflexivity | cbn; lia].
  - destruct (forallb Js.isWhiteSpace (inputMessage (page w))) eqn:Hb.
    + rewrite (handleSendMessage_blank now (page w) Hb) in Hsend.
      injection Hsend as <- _. exists []. rewrite app_nil_r.
      split; [reflexivity | cbn; lia].
    + rewrite (handleSendMessage_accepted now (page w) Hb) in Hsend.
      injection Hsend as <- _. eexists. split; [reflexivity | cbn; lia].
  - unfold handleAddAnotherTrip in Hadd. injection Hadd as <- _.
    eexists. split; [reflexivity | cbn; lia].
  - unfold submitStart in Hsub. injection Hsub as <- _.
    exists []. rewrite app_nil_r. split; [reflexivity | cbn; lia].
  - destruct (snd (submitRequests allTrips net []));
      eexists; (split; [reflexivity | cbn; lia]).
  - destruct t as [| |i n]; cbn [fireTimer] in Hfire.
    + injection Hfire as <- _. exists []. rewrite app_nil_r.
      split; [reflexivity | cbn; lia].
    + injection Hfire as <- _. eexists. split; [reflexivity | cbn; lia].
    + destruct (i <? _); injection Hfire as <- _;
        eexists; (split; [reflexivity | cbn; lia]).
Qed.

Lemma run_transcript (w w' : World) :
  run w w' ->
  exists added, messages (page w') = messages (page w) ++ added.
Proof.
  induction 1 as [w | w w' w'' Hstep _ IH].
  - exists []. now rewrite app_nil_r.
  - destruct (step_transcript w w' Hstep) as (a1 & E1 & _).
    destruct IH as (a2 & E2).
    exists (a1 ++ a2). rewrite E2, E1, app_assoc. reflexivity.
Qed.

(** X3.  The transcript is append-only: whatever events follow, a message
    that is in the transcript stays at its position, unchanged, and the
    transcript never gets shorter. *)
Theorem transcript_is_append_only (w w' : World) (k : nat) (m : Message) :
  run w w' ->
  nth_error (messages (page w)) k = Some m ->
  nth_error (messages (page w')) k = Some m /\
  length (messages (page w)) <= length (messages (page w')).
Proof.
  intros Hrun Hk. destruct (run_transcript w w' Hrun) as (added & E).
  rewrite E. split.
  - rewrite nth_error_app1; [exact Hk|].
    apply nth_error_Some. congruence.
  - rewrite length_app. lia.
Qed.

Lemma transcript_is_append_only_witness :
  nth_error (messages (page (mkWorld authenticated
                                     (fst (handleAddAnotherTrip 9 completedDraft))
                                     [FocusTimer] []))) 0
  = Some (mkMessage 1 bot greeting 0) /\
  1 <= length (messages (page (mkWorld authenticated
                                       (fst (handleAddAnotherTrip 9 completedDraft))
                                       [FocusTimer] []))).
Proof.
  apply (transcript_is_append_only
           (mkWorld authenticated completedDraft [] [])
           (mkWorld authenticated (fst (handleAddAnotherTrip 9 completedDraft))
                    [FocusTimer] [])
           0 (mkMessage 1 bot greeting 0)).
  - eapply run_next; [|apply run_here].
    apply (step_add (mkWorld authenticated completedDraft [] []) 9%N).
    + eexists. split; reflexivity.
    + reflexivity.
  - reflexivity.
Defined.

(** ** Submissions in flight *)

(** The "Submit All Trips" button is enabled only while nothing is being
    submitted. *)
Lemma offered_submit (w : World) :
  offered w (fun m => CreatePage.tripButtons m && negb (CreatePage.submitDisabled m)) ->
  isSubmitting (page w) = false.
Proof.
  intros (m & Hm & He). unfold CreatePage.Page in Hm.
  destruct (status w); cbn in Hm; try discriminate Hm.
  injection Hm as <-. cbn in He.
  apply andb_prop in He. destruct He as [_ He].
  now apply negb_true_iff in He.
Qed.

Lemma submitInv_step (w w' : World) : submitInv w -> step w w' -> submitInv w'.
Proof.
  intros [Hlen Hiff] Hstep.
  destruct Hstep as
    [ w st
    | w s' ts Heff
    | w value Hoff
    | w now s' ts Hoff Hsend
    | w now s' ts Hoff Hadd
    | w s' allTrips Hoff Hsub
    | w before after allTrips net now Hin
    | w before after t now s' ts Htm Hfire ];
    unfold submitInv; cbn [page inflight].
  - split; assumption.
  - unfold initialPromptEffect in Heff.
    destruct (_ && _) in Heff; injection Heff as <- _; split; assumption.
  - split; assumption.
  - destruct (forallb Js.isWhiteSpace (inputMessage (page w))) eqn:Hb.
    + rewrite (handleSendMessage_blank now (page w) Hb) in Hsend.
      injection Hsend as <- _. split; assumption.
    + rewrite (handleSendMessage_accepted now (page w) Hb) in Hsend.
      injection Hsend as <- _. split; assumption.
  - unfold handleAddAnotherTrip in Hadd. injection Hadd as <- _. split; assumption.
  - apply offered_submit in Hoff.
    assert (Hnone : inflight w = []).
    { destruct (inflight w) as [|x l]; [reflexivity|].
      assert (Ht : isSubmitting (page w) = true) by (apply Hiff; discriminate).
      congruence. }
    unfold submitStart in Hsub. injection Hsub as <- _.
    rewrite Hnone. cbn. split; [lia|]. split; [discriminate | reflexivity].
  - rewrite Hin in Hlen. rewrite length_app in Hlen. cbn in Hlen.
    destruct before as [|b before]; [|cbn in Hlen; lia].
    destruct after as [|a after]; [|cbn in Hlen; lia].
    destruct (submitSettle_resets (snd (submitRequests allTrips net [])) now (page w))
      as (_ & _ & _ & Hs).
    rewrite Hs. cbn. split; [lia|].
    split; [discriminate | intros H; contradiction H; reflexivity].
  - destruct t as [| |i n]; cbn [fireTimer] in Hfire.
    + injection Hfire as <- _. split; assumption.
    + injection Hfire as <- _. split; assumption.
    + destruct (i <? _); injection Hfire as <- _; split; assumption.
Qed.

(** X4.  A submission cannot be started twice: in every state the page can
    reach at most one submission is in flight, and [isSubmitting], which
    disables the submit button, is set exactly while one is. *)
Theorem at_most_one_submission_in_flight (w : World) :
  reachable w ->
  length (inflight w) <= 1 /\
  (isSubmitting (page w) = true <-> inflight w <> []).
Proof.
  induction 1 as [st now | w w' _ IH Hstep].
  - cbn. split; [lia|]. split; [discriminate | intros H; contradiction H; reflexivity].
  - exact (submitInv_step w w' IH Hstep).
Qed.

Lemma at_most_one_submission_in_flight_witness :
  exists w,
    reachable w /\ inflight w <> [] /\
    length (inflight w) <= 1 /\
    (isSubmitting (page w) = true <-> inflight w <> []).
Proof.
  pose proof (reachable_init authenticated 0) as R.
  userAnswers R (Js.lit "Lisbon") 1%N.
  userAnswers R (Js.lit "2000") 2%N.
  userAnswers R (Js.lit "2025-05-01") 3%N.
  userAnswers R (Js.lit "2025-05-08") 4%N.
  userAnswers R (Js.lit "2") 5%N.
  userAnswers R (Js.lit "none") 6%N.
  userAnswers R (Js.lit "food") 7%N.
  userSubmits R.
  eexists. split; [exact R|]. split; [discriminate|].
  apply (at_most_one_submission_in_flight _ R).
Defined.

(** ** The typing indicator *)

Lemma pendingReplies_cons_other (t : Timer) (ts : list Timer) :
  (forall i n, t <> ReplyTimer i n) ->
  pendingReplies (t :: ts) = pendingReplies ts.
Proof.
  intros H. destruct t as [| |i n]; try reflexivity.
  contradiction (H i n). reflexivity.
Qed.

(** "Add Another Trip" is there only at the last step, while the bot is not
    typing. *)
Lemma offered_addTrip (w : World) :
  offered w CreatePage.tripButtons ->
  stepIndex (page w) = length steps - 1 /\ isTyping (page w) = false.
Proof.
  intros Hoff.
  destruct (offered_tripButtons w (fun _ => true)) as (_ & Hi & Ht).
  - destruct Hoff as (m & Hm & He). exists m. split; [exact Hm | now rewrite He].
  - split; assumption.
Qed.

Lemma typingInv_step (w w' : World) : typingInv w -> step w w' -> typingInv w'.
Proof.
  intros [Hinv Hty] Hstep.
  split; [exact (wizardInv_step w w' Hinv Hstep)|].
  destruct Hstep as
    [ w st
    | w s' ts Heff
    | w value Hoff
    | w now s' ts Hoff Hsend
    | w now s' ts Hoff Hadd
    | w s' allTrips Hoff Hsub
    | w before after allTrips net now Hin
    | w before after t now s' ts Htm Hfire ];
    cbn [page timers].
  - exact Hty.
  - unfold initialPromptEffect in Heff.
    destruct (_ && _) in Heff; injection Heff as <- <-;
      rewrite pendingReplies_app; cbn; rewrite app_nil_r; exact Hty.
  - exact Hty.
  - destruct (forallb Js.isWhiteSpace (inputMessage (page w))) eqn:Hb.
    + rewrite (handleSendMessage_blank now (page w) Hb) in Hsend.
      injection Hsend as <- <-. rewrite app_nil_r. exact Hty.
    + rewrite (handleSendMessage_accepted now (page w) Hb) in Hsend.
      injection Hsend as <- <-. intros _.
      rewrite pendingReplies_app. cbn.
      intros H. apply app_eq_nil in H. destruct H as [_ H]. discriminate H.
  - destruct (offered_addTrip w Hoff) as [_ Hidle].
    unfold handleAddAnotherTrip in Hadd. injection Hadd as <- _.
    cbn. intros H. congruence.
  - unfold submitStart in Hsub. injection Hsub as <- _. exact Hty.
  - intros H. apply Hty.
    destruct (snd (submitRequests allTrips net [])); exact H.
  - rewrite Htm, pendingReplies_app in Hty.
    destruct t as [| |i n]; cbn [fireTimer] in Hfire.
    + injection Hfire as <- <-. rewrite app_nil_r, pendingReplies_app. exact Hty.
    + injection Hfire as <- <-. rewrite app_nil_r, pendingReplies_app. exact Hty.
    + destruct (i <? _); injection Hfire as <- _; cbn; discriminate.
Qed.

Lemma reachable_typingInv (w : World) : reachable w -> typingInv w.
Proof.
  induction 1 as [st now | w w' _ IH Hstep].
  - split; [apply wizardInv_init | cbn; discriminate].
  - exact (typingInv_step w w' IH Hstep).
Qed.

(** X5.  The input box is never left disabled: in every state the page can
    reach, the bot is typing (which disables the box and hides the trip
    buttons) exactly while a reply callback is pending, and there is never
    more than one; when it fires the box is enabled again. *)
Theorem typing_exactly_while_reply_pending (w : World) :
  reachable w ->
  (isTyping (page w) = true <-> pendingReplies (timers w) <> []) /\
  length (pendingReplies (timers w)) <= 1 /\
  (forall i n now, In (ReplyTimer i n) (timers w) ->
     isTyping (fst (fireTimer (ReplyTimer i n) now (page w))) = false).
Proof.
  intros Hr. destruct (reachable_typingInv w Hr) as [[_ Hp] Hty].
  split; [split; [exact Hty|]|split].
  - intros Hne. destruct (pendingReplies (timers w)) as [|i [|j r]].
    + contradiction Hne; reflexivity.
    + apply Hp.
    + contradiction.
  - destruct (pendingReplies (timers w)) as [|i [|j r]];
      [cbn; lia | cbn; lia | contradiction].
  - intros i n now _. cbn [fireTimer]. destruct (i <? _); reflexivity.
Qed.

Lemma typing_exactly_while_reply_pending_witness :
  exists w,
    reachable w /\ isTyping (page w) = true /\
    length (pendingReplies (timers w)) <= 1.
Proof.
  pose proof (reachable_init authenticated 0) as R.
  userTypes R (Js.lit "Lisbon"). userSends R 1%N.
  eexists. split; [exact R|]. split; [reflexivity|].
  apply (typing_exactly_while_reply_pending _ R).
Defined.

(** ** The effect that shows the first prompt *)

Lemma promptShown_no_effect (w : World) (st : Status) :
  promptShown w -> initialPromptEffect st (page w) = (page w, []).
Proof.
  unfold initialPromptEffect. intros [H | [_ H]].
  - destruct (Nat.eqb_spec (length (messages (page w))) 1) as [E|_]; [lia|].
    now rewrite andb_false_r.
  - rewrite H. cbn [negb]. now rewrite andb_false_r.
Qed.

Lemma promptShown_step (w w' : World) : promptShown w -> step w w' -> promptShown w'.
Proof.
  intros Hshown Hstep.
  destruct (step_transcript w w' Hstep) as (added & E & _).
  destruct Hshown as [H | [Hlen Href]].
  { left. rewrite E, length_app. lia. }
  destruct added as [|m added].
  2:{ left. rewrite E, length_app. cbn. lia. }
  rewrite app_nil_r in E.
  right. split; [congruence|].
  destruct Hstep as
    [ w st
    | w s' ts Heff
    | w value Hoff
    | w now s' ts Hoff Hsend
    | w now s' ts Hoff Hadd
    | w s' allTrips Hoff Hsub
    | w before after allTrips net now Hin
    | w before after t now s' ts Htm Hfire ];
    cbn [page] in *.
  - exact Href.
  - unfold initialPromptEffect in Heff.
    destruct (_ && _) in Heff; injection Heff as <- _; [reflexivity | exact Href].
  - exact Href.
  - destruct (forallb Js.isWhiteSpace (inputMessage (page w))) eqn:Hb.
    + rewrite (handleSendMessage_blank now (page w) Hb) in Hsend.
      injection Hsend as <- _. exact Href.
    + rewrite (handleSendMessage_accepted now (page w) Hb) in Hsend.
      injection Hsend as <- _. exact Href.
  - unfold handleAddAnotherTrip in Hadd. injection Hadd as <- _. exact Href.
  - unfold submitStart in Hsub. injection Hsub as <- _. exact Href.
  - exfalso. apply (f_equal (@length Message)) in E.
    destruct (snd (submitRequests allTrips net [])); cbn in E;
      rewrite length_app in E; cbn in E; lia.
  - destruct t as [| |i n]; cbn [fireTimer] in Hfire.
    + injection Hfire as <- _. exact Href.
    + injection Hfire as <- _. exact Href.
    + destruct (i <? _); injection Hfire as <- _; exact Href.
Qed.

Lemma promptShown_run (w w' : World) : run w w' -> promptShown w -> promptShown w'.
Proof.
  induction 1 as [w | w w' w'' Hstep _ IH]; intros H.
  - exact H.
  - apply IH. exact (promptShown_step w w' H Hstep).
Qed.

(** X6.  The effect schedules the first prompt at most once: after a run of
    the effect that scheduled it, no later run of the effect schedules
    anything or changes the state, whatever events come in between and
    whatever the session status then is. *)
Theorem first_prompt_is_scheduled_once (w w'' : World) (s' : State) (st : Status) :
  initialPromptEffect (status w) (page w) = (s', [InitialPromptTimer]) ->
  run (mkWorld (status w) s' (timers w ++ [InitialPromptTimer]) (inflight w)) w'' ->
  initialPromptEffect st (page w'') = (page w'', []).
Proof.
  intros Heff Hrun. apply promptShown_no_effect.
  apply (promptShown_run _ _ Hrun).
  unfold initialPromptEffect in Heff.
  destruct (Status_eqb (status w) authenticated
            && negb (hasShownInitialPrompt (page w))
            && (stepIndex (page w) =? 0)
            && (length (messages (page w)) =? 1)) eqn:Hc;
    [|discriminate Heff].
  injection Heff as <-.
  apply andb_prop in Hc. destruct Hc as [_ Hlen]. apply Nat.eqb_eq in Hlen.
  right. split; [exact Hlen | reflexivity].
Qed.

Lemma first_prompt_is_scheduled_once_witness :
  initialPromptEffect authenticated
    (page (mkWorld authenticated
                   (setHasShownInitialPrompt true (initialState 0))
                   [InitialPromptTimer] []))
  = (setHasShownInitialPrompt true (initialState 0), []).
Proof.
  exact (first_prompt_is_scheduled_once
           (initialWorld authenticated 0)
           (mkWorld authenticated (setHasShownInitialPrompt true (initialState 0))
                    [InitialPromptTimer] [])
           (setHasShownInitialPrompt true (initialState 0)) authenticated
           eq_refl (run_here _)).
Defined.

Lemma reachable_transcript_nonempty (w : World) :
  reachable w -> 1 <= length (messages (page w)).
Proof.
  induction 1 as [st now | w w' _ IH Hstep].
  - cbn. lia.
  - destruct (step_transcript w w' Hstep) as (added & E & _).
    rewrite E, length_app. lia.
Qed.

(** X7.  After a submission has settled the wizard is back at step 0 and the
    effect's ref is reset, yet the effect does not show the first prompt
    again: the transcript then has more than one message, and keeps it,
    so no later run of the effect schedules anything. *)
Theorem no_first_prompt_after_submission (w w'' : World) (outcome : Result unit)
        (now : N) (st : Status) :
  reachable w ->
  let settled := submitSettle outcome now (page w) in
  run (mkWorld (status w) settled (timers w) (inflight w)) w'' ->
  stepIndex settled = 0 /\
  hasShownInitialPrompt settled = false /\
  2 <= length (messages (page w'')) /\
  initialPromptEffect st (page w'') = (page w'', []).
Proof.
  intros Hr settled Hrun. subst settled.
  pose proof (reachable_transcript_nonempty w Hr) as Hne.
  assert (Hshown : promptShown
                     (mkWorld (status w) (submitSettle outcome now (page w))
                              (timers w) (inflight w))).
  { left. cbn [page]. destruct outcome; cbn; rewrite length_app; cbn; lia. }
  split; [destruct outcome; reflexivity|].
  split; [destruct outcome; reflexivity|].
  split.
  - destruct (run_transcript _ _ Hrun) as (added & E).
    rewrite E, length_app. cbn [page].
    destruct outcome; cbn; rewrite length_app; cbn; lia.
  - apply promptShown_no_effect. exact (promptShown_run _ _ Hrun Hshown).
Qed.

Lemma no_first_prompt_after_submission_witness :
  stepIndex (submitSettle Throws 5 (initialState 0)) = 0 /\
  hasShownInitialPrompt (submitSettle Throws 5 (initialState 0)) = false /\
  2 <= length (messages (submitSettle Throws 5 (initialState 0))) /\
  initialPromptEffect authenticated (submitSettle Throws 5 (initialState 0))
  = (submitSettle Throws 5 (initialState 0), []).
Proof.
  exact (no_first_prompt_after_submission
           (initialWorld authenticated 0)
           (mkWorld authenticated (submitSettle Throws 5 (initialState 0)) [] [])
           Throws 5%N authenticated
           (reachable_init authenticated 0) (run_here _)).
Defined.

(** ** The send button and the handler *)

(** X8.  The send button of the create page and [handleSendMessage] agree:
    when the button is enabled the handler accepts the message (it appends
    it to the transcript as a user message, clears the box and starts the
    typing phase, which disables the box), and when the button is disabled
    because the text is blank the handler changes nothing. *)
Theorem send_button_agrees_with_handler (status : Status) (s : State)
        (m : CreatePage.Main) (now : N) :
  CreatePage.Page status s = MainContent m ->
  (CreatePage.sendDisabled m = false ->
   messages (fst (handleSendMessage now s))
     = messages s ++ [mkMessage (length (messages s) + 1) user (inputMessage s) now] /\
   inputMessage (fst (handleSendMessage now s)) = [] /\
   (forall m', CreatePage.Page status (fst (handleSendMessage now s)) = MainContent m' ->
      CreatePage.inputDisabled m' = true /\ CreatePage.sendDisabled m' = true /\
      CreatePage.tripButtons m' = false)) /\
  (CreatePage.sendDisabled m = true -> isTyping s = false ->
   handleSendMessage now s = (s, [])).
Proof.
  intros Hm. unfold CreatePage.Page in Hm.
  destruct status; cbn in Hm; try discriminate Hm.
  injection Hm as <-. cbn [CreatePage.sendDisabled].
  rewrite blank_spec. split.
  - intros H. apply orb_false_elim in H. destruct H as [_ Hb].
    rewrite (handleSendMessage_accepted now s Hb). cbn.
    split; [reflexivity|]. split; [reflexivity|].
    intros m' Hm'. injection Hm' as <-. cbn.
    split; [reflexivity|]. split; [reflexivity|]. apply andb_false_r.
  - intros H Ht. rewrite Ht in H. cbn in H.
    exact (handleSendMessage_blank now s H).
Qed.

Lemma send_button_agrees_with_handler_witness :
  messages (fst (handleSendMessage 4 budgetDraft))
    = messages budgetDraft ++ [mkMessage 5 user (Js.lit "2000 EUR") 4] /\
  inputMessage (fst (handleSendMessage 4 budgetDraft)) = [] /\
  (forall m', CreatePage.Page authenticated (fst (handleSendMessage 4 budgetDraft))
              = MainContent m' ->
     CreatePage.inputDisabled m' = true /\ CreatePage.sendDisabled m' = true /\
     CreatePage.tripButtons m' = false).
Proof.
  eapply (send_button_agrees_with_handler authenticated budgetDraft _ 4%N);
    reflexivity.
Defined.

(** ** Where the token goes *)

Lemma sessionToken_truthy (net : Network) (token : Js.str) :
  sessionToken net = Some token -> Js.truthy token = true.
Proof.
  unfold sessionToken.
  destruct (session net) as [|se]; [discriminate|].
  destruct (Auth.token se) as [t|]; [|discriminate].
  destruct (Js.truthy t) eqn:E; [|discriminate].
  intros H. injection H as <-. exact E.
Qed.

(** X9.  Every request a submission sends is made with a non-empty access
    token in hand; the check and the registration carry it as
    [Authorization: Bearer <token>], and the POST of the trips carries no
    [Authorization] header and is the only request with a trip list. *)
Theorem token_goes_to_user_endpoints_only (net : Network) (now : N) (s : State)
        (r : Request) :
  In r (snd (handleSubmitAllTrips net now s)) ->
  exists token,
    sessionToken net = Some token /\ token <> [] /\
    ((r = checkUserRequest token \/ r = registerUserRequest token) /\
     authorization r = Some (Js.lit "Bearer " ++ token) /\
     (forall trips, body r <> Some (TripsBody trips))
     \/
     r = submitTripsRequest (currentTrips s ++ [tripData s]) /\
     authorization r = None).
Proof.
  rewrite handleSubmitAllTrips_unfold. cbn [snd].
  rewrite submitRequests_run.
  destruct (sessionToken net) as [token|] eqn:Etok; [|contradiction].
  pose proof (sessionToken_truthy net token Etok) as Htr.
  assert (Hne : token <> []) by (intros ->; discriminate Htr).
  intros Hin. exists token. split; [reflexivity|]. split; [exact Hne|].
  assert (Hcheck : r = checkUserRequest token ->
                   (r = checkUserRequest token \/ r = registerUserRequest token) /\
                   authorization r = Some (Js.lit "Bearer " ++ token) /\
                   (forall trips, body r <> Some (TripsBody trips))).
  { intros ->. split; [left; reflexivity|]. split; [reflexivity | discriminate]. }
  assert (Hreg : r = registerUserRequest token ->
                 (r = checkUserRequest token \/ r = registerUserRequest token) /\
                 authorization r = Some (Js.lit "Bearer " ++ token) /\
                 (forall trips, body r <> Some (TripsBody trips))).
  { intros ->. split; [right; reflexivity|]. split; [reflexivity | discriminate]. }
  assert (Hsub : r = submitTripsRequest (currentTrips s ++ [tripData s]) ->
                 r = submitTripsRequest (currentTrips s ++ [tripData s]) /\
                 authorization r = None).
  { intros ->. split; reflexivity. }
  cbv zeta in Hin.
  destruct (respond net [] (checkUserRequest token)) as [|checkRes].
  { destruct Hin as [<-|[]]. left. apply Hcheck. reflexivity. }
  destruct (userExists checkRes).
  { destruct Hin as [<-|[<-|[]]]; [left; apply Hcheck | right; apply Hsub]; reflexivity. }
  destruct (respond net _ (registerUserRequest token)).
  { destruct Hin as [<-|[<-|[]]]; left; [apply Hcheck | apply Hreg]; reflexivity. }
  destruct Hin as [<-|[<-|[<-|[]]]];
    [left; apply Hcheck | left; apply Hreg | right; apply Hsub]; reflexivity.
Qed.

Lemma token_goes_to_user_endpoints_only_witness :
  exists token,
    sessionToken friendlyNetwork = Some token /\ token <> [] /\
    ((checkUserRequest (Js.lit "tok") = checkUserRequest token \/
      checkUserRequest (Js.lit "tok") = registerUserRequest token) /\
     authorization (checkUserRequest (Js.lit "tok")) = Some (Js.lit "Bearer " ++ token) /\
     (forall trips, body (checkUserRequest (Js.lit "tok")) <> Some (TripsBody trips))
     \/
     checkUserRequest (Js.lit "tok")
       = submitTripsRequest (currentTrips completedDraft ++ [tripData completedDraft]) /\
     authorization (checkUserRequest (Js.lit "tok")) = None).
Proof.
  apply (token_goes_to_user_endpoints_only friendlyNetwork 9 completedDraft
           (checkUserRequest (Js.lit "tok"))).
  left. reflexivity.
Defined.

(** ** The dashboard's welcome *)

(** X10.  The dashboard never greets an empty name: the name shown is the
    session's username if that is a non-empty string, else its name if that
    is one, else "Traveler"; in particular it is "Traveler" without a
    session or a user. *)
Theorem welcome_name_is_never_empty (status : Status)
        (session : option DashboardPage.Session) (m : DashboardPage.Main) :
  DashboardPage.Page status session = MainContent m ->
  DashboardPage.welcome m <> [] /\
  match session with
  | Some (DashboardPage.mkSession (Some u)) =>
      match DashboardPage.username u, DashboardPage.name u with
      | Some (c :: x), _ => DashboardPage.welcome m = c :: x
      | _, Some (c :: y) => DashboardPage.welcome m = c :: y
      | _, _ => DashboardPage.welcome m = Js.lit "Traveler"
      end
  | _ => DashboardPage.welcome m = Js.lit "Traveler"
  end.
Proof.
  intros Hm. unfold DashboardPage.Page in Hm.
  destruct status; cbn in Hm; try discriminate Hm.
  injection Hm as <-. cbn [DashboardPage.welcome].
  destruct session as [[[[[[|c x]|] [[|d y]|]]|]]|]; cbn;
    split; try reflexivity; discriminate.
Qed.

Lemma welcome_name_is_never_empty_witness :
  DashboardPage.welcome
    (DashboardPage.mkMain
       (DashboardPage.welcomeName
          (Some (DashboardPage.mkSession
                   (Some (DashboardPage.mkUser (Some []) (Some (Js.lit "Ada")))))))) <> [] /\
  DashboardPage.welcome
    (DashboardPage.mkMain
       (DashboardPage.welcomeName
          (Some (DashboardPage.mkSession
                   (Some (DashboardPage.mkUser (Some []) (Some (Js.lit "Ada"))))))))
  = Js.lit "Ada".
Proof.
  exact (welcome_name_is_never_empty authenticated
           (Some (DashboardPage.mkSession
                    (Some (DashboardPage.mkUser (Some []) (Some (Js.lit "Ada"))))))
           _ eq_refl).
Defined.

(** ** The chat page *)

Lemma chat_send_blank (now : N) (s : ChatPage.State) :
  forallb Js.isWhiteSpace (ChatPage.inputMessage s) = true ->
  ChatEvents.handleSendMessage now s = (s, []).
Proof.
  intros H. unfold ChatEvents.handleSendMessage. rewrite blank_spec, H. reflexivity.
Qed.

Lemma chat_send_accepted (now : N) (s : ChatPage.State) :
  forallb Js.isWhiteSpace (ChatPage.inputMessage s) = false ->
  ChatEvents.handleSendMessage now s =
  (ChatPage.mkState
     (ChatPage.messages s
        ++ [mkMessage (length (ChatPage.messages s) + 1) user (ChatPage.inputMessage s) now])
     [] true,
   [ChatEvents.ReplyTimer (length (ChatPage.messages s))]).
Proof.
  intros H. unfold ChatEvents.handleSendMessage. rewrite blank_spec, H. reflexivity.
Qed.

(** X11.  On the chat page a blank message is ignored, and any other message
    is appended as it was typed and answered, when the timer fires, by the
    same canned reply whatever the message says; the box is cleared and the
    typing indicator is on between the two. *)
Theorem chat_reply_ignores_the_message (now later : N) (s : ChatPage.State) :
  let (s1, ts) := ChatEvents.handleSendMessage now s in
  if forallb Js.isWhiteSpace (ChatPage.inputMessage s)
  then s1 = s /\ ts = []
  else
    ts = [ChatEvents.ReplyTimer (length (ChatPage.messages s))] /\
    ChatPage.inputMessage s1 = [] /\
    ChatPage.isTyping s1 = true /\
    ChatPage.messages s1
      = ChatPage.messages s
          ++ [mkMessage (length (ChatPage.messages s) + 1) user (ChatPage.inputMessage s) now] /\
    forall t, In t ts ->
      ChatPage.isTyping (ChatEvents.fireTimer t later s1) = false /\
      ChatPage.messages (ChatEvents.fireTimer t later s1)
      = ChatPage.messages s1
          ++ [mkMessage (length (ChatPage.messages s) + 2) bot ChatEvents.cannedReply later].
Proof.
  destruct (forallb Js.isWhiteSpace (ChatPage.inputMessage s)) eqn:Hb.
  - rewrite (chat_send_blank now s Hb). split; reflexivity.
  - rewrite (chat_send_accepted now s Hb). cbn.
    repeat (split; [reflexivity|]).
    intros t [<-|[]]. split; reflexivity.
Qed.

Lemma chat_inputEnabled (w : ChatEvents.World) :
  ChatEvents.inputEnabled w -> ChatPage.isTyping (ChatEvents.page w) = false.
Proof.
  intros (m & Hm & He). unfold ChatPage.Page in Hm.
  destruct (ChatEvents.status w); cbn in Hm; try discriminate Hm.
  injection Hm as <-. exact He.
Qed.

Lemma alternating_length (n : nat) : length (ChatEvents.alternating n) = n.
Proof.
  induction n as [|n IH]; cbn.
  - reflexivity.
  - rewrite length_app, IH. cbn. lia.
Qed.

Lemma chatInv_step (w w' : ChatEvents.World) :
  ChatEvents.chatInv w -> ChatEvents.step w w' -> ChatEvents.chatInv w'.
Proof.
  intros (Hpos & Hid & Hty & Hph) Hstep.
  destruct Hstep as
    [ w st
    | w value Hen
    | w now s' ts Hen Hsend
    | w before after t now Htm ];
    unfold ChatEvents.chatInv; cbn [ChatEvents.page ChatEvents.timers].
  - auto.
  - cbn. auto.
  - apply chat_inputEnabled in Hen. rewrite Hen in Hph. destruct Hph as [Hodd Hnone].
    destruct (forallb Js.isWhiteSpace (ChatPage.inputMessage (ChatEvents.page w))) eqn:Hb.
    + rewrite (chat_send_blank now _ Hb) in Hsend. injection Hsend as <- <-.
      rewrite Hen, app_nil_r. auto.
    + rewrite (chat_send_accepted now _ Hb) in Hsend. injection Hsend as <- <-.
      cbn [ChatPage.messages ChatPage.isTyping].
      rewrite !map_app, !length_app, Hid, Hty, Hnone. cbn [length map id type app].
      rewrite Nat.add_1_r. split; [lia|]. split; [|split; [|split]].
      * rewrite seq_S. reflexivity.
      * cbn [ChatEvents.alternating]. rewrite Hodd. reflexivity.
      * rewrite Nat.even_succ, <- Nat.negb_even, Hodd. reflexivity.
      * cbn. rewrite Nat.sub_0_r. reflexivity.
  - destruct (ChatPage.isTyping (ChatEvents.page w)) eqn:Et.
    2:{ destruct Hph as [_ Hnone]. rewrite Hnone in Htm.
        destruct before; discriminate Htm. }
    destruct Hph as [Heven Hone]. rewrite Hone in Htm.
    destruct before as [|b before].
    2:{ destruct before; discriminate Htm. }
    injection Htm as <- <-.
    cbn [ChatEvents.fireTimer ChatPage.messages ChatPage.isTyping app].
    rewrite !map_app, !length_app, Hid, Hty. cbn [length map id type].
    destruct (length (ChatPage.messages (ChatEvents.page w))) as [|n] eqn:En;
      [lia|].
    rewrite Nat.add_1_r. cbn [Nat.sub]. rewrite Nat.sub_0_r.
    split; [lia|]. split; [|split; [|split]].
    + rewrite (seq_S (S n) 1). replace (n + 2) with (1 + S n) by lia. reflexivity.
    + cbn [ChatEvents.alternating]. rewrite Heven. reflexivity.
    + rewrite Nat.even_succ, <- Nat.negb_even, Heven. reflexivity.
    + reflexivity.
Qed.

Lemma chat_reachable_inv (w : ChatEvents.World) :
  ChatEvents.reachable w -> ChatEvents.chatInv w.
Proof.
  induction 1 as [st now | w w' _ IH Hstep].
  - repeat split. cbn. lia.
  - exact (chatInv_step w w' IH Hstep).
Qed.

(** X12.  In every state the chat page can reach, the transcript entries are
    numbered 1, 2, 3, ... by position, so no two share an id (the React key),
    the senders alternate starting with the bot's greeting, and the bot is
    typing exactly while its one reply is pending. *)
Theorem chat_transcript_is_numbered_and_alternates (w : ChatEvents.World) :
  ChatEvents.reachable w ->
  let ms := ChatPage.messages (ChatEvents.page w) in
  map id ms = seq 1 (length ms) /\
  NoDup (map id ms) /\
  map type ms = ChatEvents.alternating (length ms) /\
  (ChatPage.isTyping (ChatEvents.page w) = true <-> ChatEvents.timers w <> []) /\
  length (ChatEvents.timers w) <= 1.
Proof.
  intros Hr ms. destruct (chat_reachable_inv w Hr) as (_ & Hid & Hty & Hph).
  fold ms in Hid, Hty. split; [exact Hid|]. split; [|split; [exact Hty|]].
  - rewrite Hid. apply seq_NoDup.
  - destruct (ChatPage.isTyping (ChatEvents.page w)); destruct Hph as [_ ->]; cbn.
    + split; [split; [discriminate | reflexivity] | lia].
    + split; [split; [discriminate | intros H; contradiction H; reflexivity] | lia].
Qed.

Lemma chat_transcript_is_numbered_and_alternates_witness :
  exists w,
    ChatEvents.reachable w /\
    length (ChatPage.messages (ChatEvents.page w)) = 3 /\
    NoDup (map id (ChatPage.messages (ChatEvents.page w))).
Proof.
  pose proof (ChatEvents.reachable_init authenticated 0) as R.
  eapply ChatEvents.reachable_step in R;
    [| eapply (ChatEvents.step_type _ (Js.lit "Lisbon")); eexists; split; reflexivity ].
  cbv in R.
  eapply ChatEvents.reachable_step in R;
    [| eapply (ChatEvents.step_send _ 1%N); [eexists; split; reflexivity | reflexivity] ].
  cbv in R.
  eapply ChatEvents.reachable_step in R;
    [| eapply (ChatEvents.step_timer _ [] _ _ 2%N); reflexivity ].
  cbv in R.
  eexists. split; [exact R|]. split; [reflexivity|].
  apply (chat_transcript_is_numbered_and_alternates _ R).
Defined.

(** ** Message ids on the create page *)

Lemma numbered_snoc (ms : list Message) (m : Message) :
  numbered ms -> id m = length ms + 1 -> numbered (ms ++ [m]).
Proof.
  unfold numbered. intros H Hm.
  rewrite map_app, length_app, H. cbn [map length].
  rewrite Nat.add_1_r, seq_S, Hm. f_equal. f_equal. lia.
Qed.

(** X13.  Each handler of the create page, run to its end on a transcript
    whose ids are the positions 1, 2, 3, ..., leaves such a transcript: a
    message with its reply, "Add Another Trip", a whole submission, and the
    callback that shows the first prompt all number what they append by
    position. *)
Theorem create_handlers_keep_numbering (now later : N) (net : Network) (s : State) :
  numbered (messages s) ->
  numbered (messages (answer now later s)) /\
  numbered (messages (fst (handleAddAnotherTrip now s))) /\
  numbered (messages (fst (handleSubmitAllTrips net now s))) /\
  numbered (messages (fst (fireTimer InitialPromptTimer now s))).
Proof.
  intros H. split; [|split; [|split]].
  - destruct (forallb Js.isWhiteSpace (inputMessage s)) eqn:Hb.
    + unfold answer. rewrite (handleSendMessage_blank now s Hb). exact H.
    + rewrite (answer_accepted now later s Hb). cbv zeta.
      destruct (stepIndex s <? length steps - 1); cbn [messages];
        rewrite app_assoc;
        (apply numbered_snoc;
         [apply numbered_snoc; [exact H | reflexivity]
         | cbn [id]; rewrite length_app; cbn; lia]).
  - cbn. apply numbered_snoc; [exact H | reflexivity].
  - rewrite handleSubmitAllTrips_unfold. cbn [fst].
    destruct (snd (submitRequests (currentTrips s ++ [tripData s]) net []));
      cbn; (apply numbered_snoc; [exact H | reflexivity]).
  - cbn. apply numbered_snoc; [exact H | reflexivity].
Qed.

Lemma create_handlers_keep_numbering_witness :
  numbered (messages (answer 4 5 budgetDraft)) /\
  numbered (messages (fst (handleAddAnotherTrip 4 budgetDraft))) /\
  numbered (messages (fst (handleSubmitAllTrips deadNetwork 4 budgetDraft))) /\
  numbered (messages (fst (fireTimer InitialPromptTimer 4 budgetDraft))).
Proof.
  apply (create_handlers_keep_numbering 4 5 deadNetwork budgetDraft). reflexivity.
Defined.

(** Between events the numbering can break: the reply takes its id from the
    length the transcript had when the message was sent, so a message sent
    before the first prompt has appeared gets a reply with the id of that
    prompt. *)
Example reply_id_can_repeat :
  exists w,
    reachable w /\ map id (messages (page w)) = [1; 2; 3; 3].
Proof.
  pose proof (reachable_init authenticated 0) as R.
  effectRuns R.
  userTypes R (Js.lit "Lisbon"). userSends R 1%N.
  timerFires R 2%N. timerFires R 3%N. timerFires R 4%N.
  eexists. split; [exact R | reflexivity].
Qed.

(** ** Without a session *)

(** X14.  The gate is more than a view: while the session is not
    authenticated and no timer or submission is pending, no event changes
    the state of the create page; all that can happen is a change of the
    session status. *)
Theorem nothing_happens_without_a_session (w w' : World) :
  step w w' ->
  status w <> authenticated ->
  timers w = [] ->
  inflight w = [] ->
  page w' = page w /\ timers w' = [] /\ inflight w' = [].
Proof.
  intros Hstep Hst Htm Hfl.
  destruct Hstep as
    [ w st
    | w s' ts Heff
    | w value Hoff
    | w now s' ts Hoff Hsend
    | w now s' ts Hoff Hadd
    | w s' allTrips Hoff Hsub
    | w before after allTrips net now Hin
    | w before after t now s' ts Htm' Hfire ];
    cbn [page timers inflight].
  - auto.
  - unfold initialPromptEffect in Heff.
    assert (E : Status_eqb (status w) authenticated = false).
    { destruct (status w); [contradiction Hst|..]; reflexivity. }
    rewrite E in Heff. cbn in Heff. injection Heff as <- <-.
    rewrite Htm. auto.
  - apply offered_input in Hoff. destruct Hoff as [Ha _]. contradiction.
  - apply offered_input in Hoff. destruct Hoff as [Ha _]. contradiction.
  - destruct Hoff as (m & Hm & _). unfold CreatePage.Page in Hm.
    destruct (status w); cbn in Hm; try discriminate Hm.
    contradiction Hst. reflexivity.
  - destruct Hoff as (m & Hm & _). unfold CreatePage.Page in Hm.
    destruct (status w); cbn in Hm; try discriminate Hm.
    contradiction Hst. reflexivity.
  - rewrite Hfl in Hin. destruct before; discriminate Hin.
  - rewrite Htm in Htm'. destruct before; discriminate Htm'.
Qed.

Lemma nothing_happens_without_a_session_witness :
  page (mkWorld loading (initialState 0) [] []) = page (initialWorld loading 0) /\
  timers (mkWorld loading (initialState 0) [] []) = [] /\
  inflight (mkWorld loading (initialState 0) [] []) = [].
Proof.
  apply (nothing_happens_without_a_session (initialWorld loading 0)
           (mkWorld loading (initialState 0) [] [])).
  - apply (step_effect (initialWorld loading 0)). reflexivity.
  - discriminate.
  - reflexivity.
  - reflexivity.
Defined.

(** ** An answer overtaken by a submission *)

(** C3.  The wizard is meant to follow every accepted answer at step index
    [i < 7] with the prompt of step [i + 1] and to move the index to
    [i + 1].  The page fails to when a submission settles between a message
    and its reply.  Here the seven first prompts are answered, "Submit All Trips" is
    pressed, and while its calls are pending the user presses "Add Another
    Trip" and answers the first prompt, which leaves the page [w0] at step
    index 1 with a second answer typed.  That answer is accepted ([w1]); the
    submission fails and its [finally] block resets the index to 0 ([w2]);
    then the reply callback of the answer runs ([w3]): it shows the prompt
    of step 2, taken from the index of its render, and increments the index
    of that moment, to 1.  The answer is gone with the record, and the next
    one, given to the prompt of step 2, will be stored under the field of
    step 1. *)
Theorem accepted_answer_can_leave_the_index_behind :
  exists w0 w1 w2 w3 : World,
    reachable w0 /\
    stepIndex (page w0) = 1 /\
    inputMessage (page w0) = Js.lit "900" /\
    length (inflight w0) = 1 /\
    (* the answer is sent and accepted at step index 1 *)
    offered w0 (fun m => negb (CreatePage.sendDisabled m)) /\
    step w0 w1 /\
    page w1 = fst (handleSendMessage 10 (page w0)) /\
    getField Fbudget (tripData (page w1)) = Js.lit "900" /\
    pendingReplies (timers w1) = [1] /\
    (* the submission in flight settles *)
    step w1 w2 /\
    page w2 = submitSettle Throws 11 (page w1) /\
    (* the reply to the answer comes *)
    step w2 w3 /\
    page w3 = fst (fireTimer (ReplyTimer 1 (length (messages (page w0)))) 12 (page w2)) /\
    option_map content (last (map Some (messages (page w3))) None)
      = option_map prompt (nth_error steps (1 + 1)) /\
    stepIndex (page w3) = 1 /\
    stepIndex (page w3) <> 1 + 1 /\
    tripData (page w3) = emptyTrip.
Proof.
  pose proof (reachable_init authenticated 0) as R.
  userAnswers R (Js.lit "Lisbon") 1%N.
  userAnswers R (Js.lit "2000") 2%N.
  userAnswers R (Js.lit "2025-05-01") 3%N.
  userAnswers R (Js.lit "2025-05-08") 4%N.
  userAnswers R (Js.lit "2") 5%N.
  userAnswers R (Js.lit "none") 6%N.
  userAnswers R (Js.lit "food") 7%N.
  userSubmits R.
  userAddsTrip R 8%N. timerFires R 8%N.
  userAnswers R (Js.lit "Oslo") 9%N.
  userTypes R (Js.lit "900").
  match type of R with reachable ?w => set (w0 := w) in * end.
  pose (w1 := mkWorld (status w0) (fst (handleSendMessage 10 (page w0)))
                      (timers w0 ++ snd (handleSendMessage 10 (page w0)))
                      (inflight w0)).
  pose (w2 := mkWorld (status w1) (submitSettle Throws 11 (page w1)) (timers w1) []).
  pose (w3 := mkWorld (status w2)
                      (fst (fireTimer (ReplyTimer 1 (length (messages (page w0)))) 12
                                      (page w2)))
                      ([FocusTimer] ++ []
                         ++ snd (fireTimer (ReplyTimer 1 (length (messages (page w0)))) 12
                                           (page w2)))
                      (inflight w2)).
  exists w0, w1, w2, w3.
  split; [exact R|].
  repeat (split; [reflexivity|]).
  split; [eexists; split; reflexivity|].
  split.
  { apply (step_send w0 10%N); [eexists; split; reflexivity | reflexivity]. }
  repeat (split; [reflexivity|]).
  split.
  { exact (step_settle w1 [] [] (hd [] (inflight w1)) deadNetwork 11%N eq_refl). }
  split; [reflexivity|].
  split.
  { apply (step_timer w2 [FocusTimer] [] (ReplyTimer 1 (length (messages (page w0)))) 12%N);
      reflexivity. }
  repeat (split; [reflexivity|]).
  split; [discriminate | reflexivity].
Qed.
